(** * Shape, configuration and determinism of the ASR model of
      [src/modules/model.py]

    The four classes of the source ([CNNLayerNorm], [ResidualCNN],
    [BidirectionalGRU], [SpeechRecognitionModel]) are embedded as records
    (the attributes set by [__init__]) and [forward] functions written in a
    small monad that carries what a forward call of a [torch.nn.Module] can
    observe: the qualified name of the running sub-module, the state of the
    random generator that [Dropout] consumes, and the exception that the
    tensor library raises on a shape mismatch.

    The tensor library itself is not part of the repository.  Its layers are
    modelled in [Module nn] and [Module F] by their documented shape rules;
    the numbers they compute are left to a [Backend], which also fixes the
    value of every learned parameter. *)

From Stdlib Require Import String ZArith QArith Bool List Lia.
Import ListNotations.

Local Open Scope Z_scope.

(** ** Exceptions, module paths and the forward monad *)

(** One step of a qualified module name: an attribute ([self.cnn1]) or the
    position of a child of a [Sequential] container. *)
Inductive seg : Type :=
| Attr (name : string)
| Item (i : nat).

Arguments Attr name%_string.

Definition path : Type := list seg.

(** What the tensor library complains about. *)
Inductive exn : Type :=
| IndexError                                  (* tuple index out of range *)
| DimOutOfRange (ndim : nat) (dim : nat)      (* transpose on a missing axis *)
| ConvInputRank (ndim : nat)                  (* Conv2d wants 3D or 4D input *)
| ConvParams                                  (* non-positive stride, negative padding, empty kernel *)
| ConvWeight (out_channels : Z)               (* fewer output channels than groups *)
| ConvChannels (expected got : Z)
| ConvKernelTooLarge (padded kernel : Z)
| NormShape (expected : Z) (got : list Z)     (* LayerNorm: trailing axis differs *)
| LinearShape (in_features : Z) (got : list Z)
| GRUInputRank (ndim : nat)
| GRUInputSize (expected got : Z)
| GRUEmptySequence
| ViewSize (requested have : list Z)
| BroadcastShape (target other : list Z)
| DropoutRange.

(** An exception together with the module in which it was raised. *)
Record error : Type := mkError { site : path; what : exn }.

(** The random generator: the stream of keep/drop outcomes still to be
    handed out.  Nothing is assumed about their distribution. *)
Definition Generator : Type := nat -> bool.

Definition M (A : Type) : Type := path -> Generator -> error + (A * Generator).

Definition ret {A} (a : A) : M A := fun _ g => inr (a, g).

Definition bind {A B} (c : M A) (k : A -> M B) : M B :=
  fun p g => match c p g with
             | inl e => inl e
             | inr (a, g') => k a p g'
             end.

Definition raise {A} (w : exn) : M A := fun p _ => inl (mkError p w).

(** [self.<s>(...)]: run [c] as the sub-module named [s]. *)
Definition call {A} (s : seg) (c : M A) : M A := fun p g => c (p ++ [s]) g.

(** The qualified name of the running module. *)
Definition whoami : M path := fun p g => inr (p, g).

(** Take the next [n] outcomes from the generator. *)
Definition draw (n : nat) : M (list bool) :=
  fun _ g => inr (map g (seq 0 n), fun i => g (n + i)%nat).

Declare Scope fwd_scope.
Delimit Scope fwd_scope with fwd.
Notation "x <- c ;; k" := (bind c (fun x => k))
  (at level 100, c at next level, right associativity) : fwd_scope.
Notation "' pat <- c ;; k" := (bind c (fun v => match v with pat => k end))
  (at level 100, pat pattern, c at next level, right associativity) : fwd_scope.
Local Open Scope fwd_scope.

(** The result of a call without the generator it leaves behind. *)
Definition outcome {A} (r : error + (A * Generator)) : error + A :=
  match r with
  | inl e => inl e
  | inr (a, _) => inr a
  end.

(** ** The numeric backend

    [scalar] is the element type.  The kernels of the parameterised layers
    receive the qualified name of the layer, as the keys of a [state_dict]
    do: a backend stands for the arithmetic of the library together with
    the current value of every learned parameter. *)
Class Backend : Type := {
  scalar : Type;
  s_zero : scalar;
  s_add : scalar -> scalar -> scalar;
  (* GELU of one element *)
  s_gelu : scalar -> scalar;
  (* [s_drop p keep v]: [v] times the dropout noise, [keep / (1 - p)] *)
  s_drop : Q -> bool -> scalar -> scalar;
  (* layer normalisation of one feature vector, affine part included *)
  k_layer_norm : path -> list scalar -> list scalar;
  (* affine map of one feature vector *)
  k_linear : path -> list scalar -> list scalar;
  (* one sample [(C, H, W)] through a convolution with the given
     [(out_channels, kernel, stride, padding)]; the result is read at
     [(o, i, j)] *)
  k_conv2d : path -> Z * Z * Z * Z -> list Z -> (list Z -> scalar) -> list Z -> scalar;
  (* one sequence of feature vectors through a recurrent layer: the
     outputs per step, both directions concatenated when [bidirectional] *)
  k_gru : path -> Z -> bool -> list (list scalar) -> list (list scalar)
}.

(** ** Tensors *)

Section Tensors.
Context {K : Backend}.

(** A tensor is its [size()] and its elements by multi-index. *)
Record Tensor : Type := mkTensor { shape : list Z; data : list Z -> scalar }.

Definition ndim (x : Tensor) : nat := length (shape x).

Definition prod (s : list Z) : Z := fold_right Z.mul 1 s.

Definition numel (x : Tensor) : nat := Z.to_nat (prod (shape x)).

(** [range(n)] *)
Definition range (n : Z) : list Z := map Z.of_nat (seq 0 (Z.to_nat n)).

(** Row-major position of a multi-index and back. *)
Fixpoint ravel (s idx : list Z) : Z :=
  match s, idx with
  | d :: s', i :: idx' => i * prod s' + ravel s' idx'
  | _, _ => 0
  end.

Fixpoint unravel (s : list Z) (n : Z) : list Z :=
  match s with
  | [] => []
  | _ :: s' => n / prod s' :: unravel s' (n mod prod s')
  end.

(** The list [l] with positions [i] and [j] exchanged. *)
Definition swap {A} (i j : nat) (d : A) (l : list A) : list A :=
  map (fun k => nth (if Nat.eqb k i then j else if Nat.eqb k j then i else k) l d)
      (seq 0 (length l)).

(** [sizes[i]] on the tuple returned by [x.size()]. *)
Definition getitem (sizes : list Z) (i : nat) : M Z :=
  match nth_error sizes i with
  | Some d => ret d
  | None => raise IndexError
  end.

(** [x.transpose(d0, d1)] *)
Definition transpose (d0 d1 : nat) (x : Tensor) : M Tensor :=
  if (d0 <? ndim x)%nat then
    if (d1 <? ndim x)%nat then
      ret {| shape := swap d0 d1 0 (shape x);
             data := fun idx => data x (swap d0 d1 0 idx) |}
    else raise (DimOutOfRange (ndim x) d1)
  else raise (DimOutOfRange (ndim x) d0).

(** [x.contiguous()] changes the memory layout only. *)
Definition contiguous (x : Tensor) : M Tensor := ret x.

(** [x.view] with the sizes [s], on a contiguous tensor: same elements in row-major
    order. *)
Definition view (s : list Z) (x : Tensor) : M Tensor :=
  if forallb (Z.leb 0) s && (prod s =? prod (shape x)) then
    ret {| shape := s;
           data := fun idx => data x (unravel (shape x) (ravel s idx)) |}
  else raise (ViewSize s (shape x)).

(** Index into [other] of the element that broadcasts to position [idx]
    of a tensor of shape [target] (shapes aligned on the right). *)
Definition broadcast_index (target other idx : list Z) : list Z :=
  let lead := (length target - length other)%nat in
  map (fun '(t, (o, i)) => if t =? o then i else 0)
      (combine (skipn lead target) (combine other (skipn lead idx))).

Definition broadcastable (target other : list Z) : bool :=
  (length other <=? length target)%nat &&
  forallb (fun '(t, o) => (t =? o) || (o =? 1))
          (combine (skipn (length target - length other) target) other).

(** [x += other]: in-place addition; [other] is broadcast to the shape of
    [x], which does not change. *)
Definition iadd (x other : Tensor) : M Tensor :=
  if broadcastable (shape x) (shape other) then
    ret {| shape := shape x;
           data := fun idx =>
             s_add (data x idx)
                   (data other (broadcast_index (shape x) (shape other) idx)) |}
  else raise (BroadcastShape (shape x) (shape other)).

End Tensors.

Arguments Tensor {K}.

(** ** The layers of [torch.nn] and [torch.nn.functional] that the source
       uses

    A layer is the record of its configuration; its constructor ([new])
    only records it.  The allocation and the initial value of the
    parameters are outside the model: the backend stands for their current
    value.  [forward] checks the shape of its input as the library does and
    raises where the library raises. *)

(** A list without its last element, and that element: the leading axes
    and the trailing axis of a shape or of an index. *)
Fixpoint split_last {A} (l : list A) : option (list A * A) :=
  match l with
  | [] => None
  | a :: l' => match split_last l' with
               | None => Some ([], a)
               | Some (i, z) => Some (a :: i, z)
               end
  end.

(** The vector along the trailing axis of [x] that passes through [idx]. *)
Definition fibre {K : Backend} (x : Tensor) (n : Z) (idx : list Z) : list scalar :=
  match split_last idx with
  | Some (lead, _) => map (fun j => data x (lead ++ [j])) (range n)
  | None => []
  end.

(** Position along the trailing axis. *)
Definition trailing (idx : list Z) : nat :=
  match split_last idx with
  | Some (_, j) => Z.to_nat j
  | None => 0%nat
  end.

Module F.
Section Functional.
Context {K : Backend}.

(** [F.gelu(x)]: element-wise. *)
Definition gelu (x : Tensor) : Tensor :=
  {| shape := shape x; data := fun idx => s_gelu (data x idx) |}.

(** [F.dropout(x, p, training)].  A probability outside [0, 1] is
    refused.  Outside training, or with [p = 0], the input is returned and
    the generator is left alone; with [p = 1] every element is multiplied
    by zero; otherwise one outcome per element is drawn and the element is
    multiplied by the noise. *)
Definition dropout (x : Tensor) (p : Q) (training : bool) : M Tensor :=
  if negb (Qle_bool 0 p) || negb (Qle_bool p 1) then raise DropoutRange
  else if Qeq_bool p 0 || negb training || (numel x =? 0)%nat then ret x
  else if Qeq_bool p 1 then
    ret {| shape := shape x; data := fun idx => s_drop p false (data x idx) |}
  else
    mask <- draw (numel x) ;;
    ret {| shape := shape x;
           data := fun idx =>
             s_drop p (nth (Z.to_nat (ravel (shape x) idx)) mask false) (data x idx) |}.

End Functional.
End F.

Module nn.

(** [torch.nn.LayerNorm(normalized_shape)] with one integer: normalises
  along the trailing axis, which must have that length. *)
Module LayerNorm.
Record t : Type := new { normalized_shape : Z }.

Definition forward {K : Backend} (self : t) (x : Tensor) : M Tensor :=
  me <- whoami ;;
  match split_last (shape x) with
  | Some (_, d) =>
      if d =? normalized_shape self then
        ret {| shape := shape x;
               data := fun idx =>
                 nth (trailing idx) (k_layer_norm me (fibre x d idx)) s_zero |}
      else raise (NormShape (normalized_shape self) (shape x))
  | None => raise (NormShape (normalized_shape self) (shape x))
  end.
End LayerNorm.

(** [torch.nn.Linear(in_features, out_features)]: acts on the trailing
  axis, which must have length [in_features]. *)
Module Linear.
Record t : Type := new { in_features : Z; out_features : Z }.

Definition forward {K : Backend} (self : t) (x : Tensor) : M Tensor :=
  me <- whoami ;;
  match split_last (shape x) with
  | Some (lead, d) =>
      if d =? in_features self then
        ret {| shape := lead ++ [out_features self];
               data := fun idx =>
                 nth (trailing idx) (k_linear me (fibre x d idx)) s_zero |}
      else raise (LinearShape (in_features self) (shape x))
  | None => raise (LinearShape (in_features self) (shape x))
  end.
End Linear.

(** [torch.nn.Conv2d(in_channels, out_channels, kernel_size, stride,
  padding)] with integer kernel, stride and padding (the same on both
  spatial axes), dilation 1 and one group. *)
Module Conv2d.
Record t : Type := new {
  in_channels : Z;
  out_channels : Z;
  kernel_size : Z;
  stride : Z;
  padding : Z
}.

(** Length of a spatial axis after the convolution. *)
Definition out_size (self : t) (n : Z) : Z :=
  (n + 2 * padding self - (kernel_size self - 1) - 1) / stride self + 1.

(** Shape of one convolved sample [(C, H, W)], or the complaint.  The
  checks come in the order of the library's: the parameters, the weight
  (with one group it needs at least one output channel), the channels of
  the input, the kernel against the padded input. *)
Definition sample_shape (self : t) (c h w : Z) : exn + list Z :=
  if (stride self <=? 0) || (padding self <? 0) || (kernel_size self <=? 0)
  then inl ConvParams
  else if out_channels self <? 1 then inl (ConvWeight (out_channels self))
  else if negb (c =? in_channels self) then inl (ConvChannels (in_channels self) c)
  else if h + 2 * padding self <? kernel_size self
  then inl (ConvKernelTooLarge (h + 2 * padding self) (kernel_size self))
  else if w + 2 * padding self <? kernel_size self
  then inl (ConvKernelTooLarge (w + 2 * padding self) (kernel_size self))
  else inr [out_channels self; out_size self h; out_size self w].

Definition hyper (self : t) : Z * Z * Z * Z :=
  (out_channels self, kernel_size self, stride self, padding self).

(** Batched [(N, C, H, W)] or unbatched [(C, H, W)] input. *)
Definition forward {K : Backend} (self : t) (x : Tensor) : M Tensor :=
  me <- whoami ;;
  match shape x with
  | [n; c; h; w] =>
      match sample_shape self c h w with
      | inr s =>
          ret {| shape := n :: s;
                 data := fun idx =>
                   match idx with
                   | b :: rest =>
                       k_conv2d me (hyper self) [c; h; w]
                                (fun i => data x (b :: i)) rest
                   | [] => s_zero
                   end |}
      | inl w => raise w
      end
  | [c; h; w] =>
      match sample_shape self c h w with
      | inr s =>
          ret {| shape := s;
                 data := k_conv2d me (hyper self) [c; h; w] (data x) |}
      | inl w => raise w
      end
  | _ => raise (ConvInputRank (ndim x))
  end.
End Conv2d.

(** [torch.nn.GRU(input_size, hidden_size, num_layers, batch_first,
  bidirectional)].  [forward] returns the outputs of every step and the
  final hidden states. *)
Module GRU.
Record t : Type := new {
  input_size : Z;
  hidden_size : Z;
  num_layers : Z;
  batch_first : bool;
  bidirectional : bool
}.

Definition num_directions (self : t) : Z := if bidirectional self then 2 else 1.

(** Index into a batched input of step [s] of sequence [b]. *)
Definition at_step (self : t) (b s : Z) : list Z -> list Z :=
  fun rest => if batch_first self then b :: s :: rest else s :: b :: rest.

Definition forward {K : Backend} (self : t) (x : Tensor) : M (Tensor * Tensor) :=
  me <- whoami ;;
  let width := num_directions self * hidden_size self in
  let run (steps : Z) (elem : Z -> Z -> scalar) : list (list scalar) :=
    k_gru me (hidden_size self) (bidirectional self)
          (map (fun s => map (elem s) (range (input_size self))) (range steps)) in
  let final (out : list (list scalar)) (steps : Z) (dir j : Z) : scalar :=
    if dir =? 0
    then nth (Z.to_nat j) (nth (Z.to_nat (steps - 1)) out []) s_zero
    else nth (Z.to_nat (hidden_size self + j)) (nth 0 out []) s_zero in
  match shape x with
  | [d0; d1; d] =>
      let steps := if batch_first self then d1 else d0 in
      let batch := if batch_first self then d0 else d1 in
      let out (b : Z) := run steps (fun s f => data x (at_step self b s [f])) in
      if negb (d =? input_size self) then raise (GRUInputSize (input_size self) d)
      else if steps <=? 0 then raise GRUEmptySequence
      else
        ret ({| shape := [d0; d1; width];
                data := fun idx =>
                  match idx with
                  | [i0; i1; j] =>
                      let b := if batch_first self then i0 else i1 in
                      let s := if batch_first self then i1 else i0 in
                      nth (Z.to_nat j) (nth (Z.to_nat s) (out b) []) s_zero
                  | _ => s_zero
                  end |},
             {| shape := [num_directions self * num_layers self; batch; hidden_size self];
                data := fun idx =>
                  match idx with
                  | [dir; b; j] => final (out b) steps dir j
                  | _ => s_zero
                  end |})
  | [steps; d] =>
      let out := run steps (fun s f => data x [s; f]) in
      if negb (d =? input_size self) then raise (GRUInputSize (input_size self) d)
      else if steps <=? 0 then raise GRUEmptySequence
      else
        ret ({| shape := [steps; width];
                data := fun idx =>
                  match idx with
                  | [s; j] => nth (Z.to_nat j) (nth (Z.to_nat s) out []) s_zero
                  | _ => s_zero
                  end |},
             {| shape := [num_directions self * num_layers self; hidden_size self];
                data := fun idx =>
                  match idx with
                  | [dir; j] => final out steps dir j
                  | _ => s_zero
                  end |})
  | _ => raise (GRUInputRank (ndim x))
  end.
End GRU.

(** [torch.nn.Dropout(p)].  A new module is in training mode. *)
Module Dropout.
Record t : Type := mk { p : Q; training : bool }.

Definition new (p : Q) : t := {| p := p; training := true |}.

Definition forward {K : Backend} (self : t) (x : Tensor) : M Tensor :=
  F.dropout x (p self) (training self).

(** [Module.train(mode)] *)
Definition train (mode : bool) (self : t) : t :=
  {| p := p self; training := mode |}.
End Dropout.

(** The kinds of module that the classifier head is made of. *)
Inductive Layer : Type :=
| OfLinear (l : Linear.t)
| OfGELU
| OfDropout (d : Dropout.t).

Module Layer.
Definition forward {K : Backend} (self : Layer) (x : Tensor) : M Tensor :=
  match self with
  | OfLinear l => Linear.forward l x
  | OfGELU => ret (F.gelu x)
  | OfDropout d => Dropout.forward d x
  end.

Definition train (mode : bool) (self : Layer) : Layer :=
  match self with
  | OfDropout d => OfDropout (Dropout.train mode d)
  | other => other
  end.
End Layer.

(** [torch.nn.Sequential(...)]: the children run in order, each named by
  its position. *)
Module Sequential.
Fixpoint forward_from {K : Backend} {L} (fwd : L -> Tensor -> M Tensor)
         (i : nat) (children : list L) (x : Tensor) : M Tensor :=
  match children with
  | [] => ret x
  | l :: rest =>
      x <- call (Item i) (fwd l x) ;;
      forward_from fwd (S i) rest x
  end.

Definition forward {K : Backend} {L} (fwd : L -> Tensor -> M Tensor)
           (children : list L) (x : Tensor) : M Tensor :=
  forward_from fwd 0 children x.
End Sequential.

End nn.

(** ** The classes of [src/modules/model.py] *)

(** Layer normalization built for CNNs input. *)
Module CNNLayerNorm.
Record t : Type := mk { layer_norm : nn.LayerNorm.t }.

Definition __init__ (n_feats : Z) : t :=
  {| layer_norm := nn.LayerNorm.new n_feats |}.

(** Input [x] of dimension (batch, channel, feature, time). *)
Definition forward {K : Backend} (self : t) (x : Tensor) : M Tensor :=
  x <- transpose 2 3 x ;;
  x <- contiguous x ;;                       (* (batch, channel, time, feature) *)
  x <- call (Attr "layer_norm") (nn.LayerNorm.forward (layer_norm self) x) ;;
  x <- transpose 2 3 x ;;
  contiguous x.                              (* (batch, channel, feature, time) *)
End CNNLayerNorm.

(** Residual CNN with layer norm instead of batch norm. *)
Module ResidualCNN.
Record t : Type := mk {
  cnn1 : nn.Conv2d.t;
  cnn2 : nn.Conv2d.t;
  dropout1 : nn.Dropout.t;
  dropout2 : nn.Dropout.t;
  layer_norm1 : CNNLayerNorm.t;
  layer_norm2 : CNNLayerNorm.t
}.

Definition __init__ (in_channels out_channels kernel stride : Z) (dropout : Q)
           (n_feats : Z) : t :=
  {| cnn1 := nn.Conv2d.new in_channels out_channels kernel stride (kernel / 2);
     cnn2 := nn.Conv2d.new out_channels out_channels kernel stride (kernel / 2);
     dropout1 := nn.Dropout.new dropout;
     dropout2 := nn.Dropout.new dropout;
     layer_norm1 := CNNLayerNorm.__init__ n_feats;
     layer_norm2 := CNNLayerNorm.__init__ n_feats |}.

(** Input [x] of dimension (batch, channel, feature, time). *)
Definition forward {K : Backend} (self : t) (x : Tensor) : M Tensor :=
  let residual := x in
  x <- call (Attr "layer_norm1") (CNNLayerNorm.forward (layer_norm1 self) x) ;;
  let x := F.gelu x in
  x <- call (Attr "dropout1") (nn.Dropout.forward (dropout1 self) x) ;;
  x <- call (Attr "cnn1") (nn.Conv2d.forward (cnn1 self) x) ;;
  x <- call (Attr "layer_norm2") (CNNLayerNorm.forward (layer_norm2 self) x) ;;
  let x := F.gelu x in
  x <- call (Attr "dropout2") (nn.Dropout.forward (dropout2 self) x) ;;
  x <- call (Attr "cnn2") (nn.Conv2d.forward (cnn2 self) x) ;;
  x <- iadd x residual ;;
  ret x.                                     (* (batch, channel, feature, time) *)

(** [Module.train(mode)], inherited: sets the mode of every child. *)
Definition train (mode : bool) (self : t) : t :=
  {| cnn1 := cnn1 self;
     cnn2 := cnn2 self;
     dropout1 := nn.Dropout.train mode (dropout1 self);
     dropout2 := nn.Dropout.train mode (dropout2 self);
     layer_norm1 := layer_norm1 self;
     layer_norm2 := layer_norm2 self |}.
End ResidualCNN.

(** The bidirectional GRU block used by the main model. *)
Module BidirectionalGRU.
Record t : Type := mk {
  BiGRU : nn.GRU.t;
  layer_norm : nn.LayerNorm.t;
  dropout : nn.Dropout.t
}.

Definition __init__ (rnn_dim hidden_size : Z) (dropout : Q) (batch_first : bool) : t :=
  {| BiGRU := nn.GRU.new rnn_dim hidden_size 1 batch_first true;
     layer_norm := nn.LayerNorm.new rnn_dim;
     dropout := nn.Dropout.new dropout |}.

Definition forward {K : Backend} (self : t) (x : Tensor) : M Tensor :=
  x <- call (Attr "layer_norm") (nn.LayerNorm.forward (layer_norm self) x) ;;
  let x := F.gelu x in
  '(x, _) <- call (Attr "BiGRU") (nn.GRU.forward (BiGRU self) x) ;;
  x <- call (Attr "dropout") (nn.Dropout.forward (dropout self) x) ;;
  ret x.

(** [Module.train(mode)], inherited. *)
Definition train (mode : bool) (self : t) : t :=
  {| BiGRU := BiGRU self;
     layer_norm := layer_norm self;
     dropout := nn.Dropout.train mode (dropout self) |}.
End BidirectionalGRU.

(** The main ASR model. *)
Module SpeechRecognitionModel.
Record t : Type := mk {
  cnn : nn.Conv2d.t;
  rescnn_layers : list ResidualCNN.t;
  fully_connected : nn.Linear.t;
  birnn_layers : list BidirectionalGRU.t;
  classifier : list nn.Layer
}.

(** Defaults of the keyword arguments of [__init__]. *)
Definition default_stride : Z := 2.
Definition default_dropout : Q := 1 # 10.

Definition __init__ (n_cnn_layers n_rnn_layers rnn_dim n_class n_feats : Z)
           (stride : Z) (dropout : Q) : t :=
  let n_feats := n_feats / 2 in
  {| cnn := nn.Conv2d.new 1 32 3 stride (3 / 2);
     (* n residual cnn layers with filter size of 32 *)
     rescnn_layers :=
       map (fun _ => ResidualCNN.__init__ 32 32 3 1 dropout n_feats)
           (range n_cnn_layers);
     fully_connected := nn.Linear.new (n_feats * 32) rnn_dim;
     birnn_layers :=
       map (fun i => BidirectionalGRU.__init__
                       (if i =? 0 then rnn_dim else rnn_dim * 2)
                       rnn_dim dropout (i =? 0))
           (range n_rnn_layers);
     classifier :=
       [ nn.OfLinear (nn.Linear.new (rnn_dim * 2) rnn_dim);  (* birnn returns rnn_dim*2 *)
         nn.OfGELU;
         nn.OfDropout (nn.Dropout.new dropout);
         nn.OfLinear (nn.Linear.new rnn_dim n_class) ] |}.

Definition forward {K : Backend} (self : t) (x : Tensor) : M Tensor :=
  x <- call (Attr "cnn") (nn.Conv2d.forward (cnn self) x) ;;
  x <- call (Attr "rescnn_layers")
            (nn.Sequential.forward ResidualCNN.forward (rescnn_layers self) x) ;;
  let sizes := shape x in
  s0 <- getitem sizes 0 ;;
  s1 <- getitem sizes 1 ;;
  s2 <- getitem sizes 2 ;;
  s3 <- getitem sizes 3 ;;
  x <- view [s0; s1 * s2; s3] x ;;           (* (batch, feature, time) *)
  x <- transpose 1 2 x ;;                    (* (batch, time, feature) *)
  x <- call (Attr "fully_connected") (nn.Linear.forward (fully_connected self) x) ;;
  x <- call (Attr "birnn_layers")
            (nn.Sequential.forward BidirectionalGRU.forward (birnn_layers self) x) ;;
  x <- call (Attr "classifier")
            (nn.Sequential.forward nn.Layer.forward (classifier self) x) ;;
  ret x.

(** [Module.train(mode)] and [Module.eval()], inherited. *)
Definition train (mode : bool) (self : t) : t :=
  {| cnn := cnn self;
     rescnn_layers := map (ResidualCNN.train mode) (rescnn_layers self);
     fully_connected := fully_connected self;
     birnn_layers := map (BidirectionalGRU.train mode) (birnn_layers self);
     classifier := map (nn.Layer.train mode) (classifier self) |}.

Definition eval (self : t) : t := train false self.
End SpeechRecognitionModel.

(** ** A small concrete backend, for running the model

    Integer elements; every kernel is a simple function that lets its input
    show through, so that the effect of a dropped element is visible at the
    output. *)
Definition sum_Z (l : list Z) : Z := fold_right Z.add 0 l.

Definition ToyBackend : Backend := {|
  scalar := Z;
  s_zero := 0;
  s_add := Z.add;
  s_gelu := fun v => v;
  s_drop := fun _ keep v => if keep then 2 * v else 0;
  k_layer_norm := fun _ v => v;
  k_linear := fun _ v => repeat (sum_Z v) 64;
  k_conv2d := fun _ _ _ sample idx =>
                match idx with
                | [_; i; j] => sample [0; i; j]
                | _ => 0
                end;
  k_gru := fun _ h _ steps => map (fun v => repeat (sum_Z v) (Z.to_nat (2 * h))) steps
|}.

(** ** Notions used to state the properties *)

(** Partial correctness: every result that [c] returns satisfies [Q]. *)
Definition post {A} (c : M A) (Q : A -> Prop) : Prop :=
  forall p g a g', c p g = inr (a, g') -> Q a.

(** [c] raises, wherever it is called and whatever the generator holds. *)
Definition fails {A} (c : M A) : Prop :=
  forall p g, exists e, c p g = inl e.

(** Two generators that will hand out the same outcomes. *)
Definition same_draws (g1 g2 : Generator) : Prop := forall i, g1 i = g2 i.

(** No relation between the two generators. *)
Definition any_draws (g1 g2 : Generator) : Prop := True.

(** Two runs of [c] from generators related by [R] end alike: with the
    same exception, or with the same value and generators that are
    related again. *)
Definition agree {A} (R : Generator -> Generator -> Prop) (c : M A) : Prop :=
  forall p g1 g2, R g1 g2 ->
    match c p g1, c p g2 with
    | inl e1, inl e2 => e1 = e2
    | inr (a1, h1), inr (a2, h2) => a1 = a2 /\ R h1 h2
    | _, _ => False
    end.

(** A dropout module that hands its input back: probability 0 or
    evaluation mode. *)
Definition inactive (d : nn.Dropout.t) : bool :=
  Qeq_bool (nn.Dropout.p d) 0 || negb (nn.Dropout.training d).

(** Either the dropout module is inactive, or the two runs draw alike. *)
Definition tame (R : Generator -> Generator -> Prop) (d : nn.Dropout.t) : Prop :=
  inactive d = true \/ forall n, agree R (draw n).

Definition tame_layer (R : Generator -> Generator -> Prop) (l : nn.Layer) : Prop :=
  match l with
  | nn.OfDropout d => tame R d
  | _ => True
  end.

Definition tame_model (R : Generator -> Generator -> Prop)
           (m : SpeechRecognitionModel.t) : Prop :=
  Forall (fun b => tame R (ResidualCNN.dropout1 b) /\ tame R (ResidualCNN.dropout2 b))
         (SpeechRecognitionModel.rescnn_layers m)
  /\ Forall (fun b => tame R (BidirectionalGRU.dropout b))
            (SpeechRecognitionModel.birnn_layers m)
  /\ Forall (tame_layer R) (SpeechRecognitionModel.classifier m).

(** The size of the leading axis, if there is one. *)
Definition batch_size {K : Backend} (x : Tensor) : option Z := hd_error (shape x).

(** The element at [(i0, i1, j)] of the output of the recurrent layer of a
    block, when the layer is fed [v]: component [j] of the step of the
    sequence that the position belongs to. *)
Definition gru_output {K : Backend} (self : nn.GRU.t) (v : list Z -> scalar) (d0 d1 : Z)
           (me : path) (i0 i1 j : Z) : scalar :=
  let steps := if nn.GRU.batch_first self then d1 else d0 in
  let b := if nn.GRU.batch_first self then i0 else i1 in
  let s := if nn.GRU.batch_first self then i1 else i0 in
  nth (Z.to_nat j)
      (nth (Z.to_nat s)
           (k_gru me (nn.GRU.hidden_size self) (nn.GRU.bidirectional self)
                  (map (fun s' => map (fun f => v (nn.GRU.at_step self b s' [f]))
                                      (range (nn.GRU.input_size self)))
                       (range steps)))
           [])
      s_zero.

(** Two tensors with as many axes and, when there are at least two, the
    same leading axis. *)
Definition same_batch {K : Backend} (x y : Tensor) : Prop :=
  length (shape y) = length (shape x)
  /\ ((2 <= length (shape x))%nat -> batch_size y = batch_size x).

(** Two tensors with as many axes and the same leading axis. *)
Definition same_lead {K : Backend} (x y : Tensor) : Prop :=
  length (shape y) = length (shape x) /\ batch_size y = batch_size x.

(** A tensor of the concrete backend with distinct elements, and the
    element of a result at a position. *)
Definition toy_tensor (s : list Z) : @Tensor ToyBackend :=
  mkTensor (K := ToyBackend) s (fun idx => 1 + ravel s idx).

Definition element_at {K : Backend} (r : error + (Tensor * Generator)) (idx : list Z)
  : option scalar :=
  match r with
  | inl _ => None
  | inr (y, _) => Some (data y idx)
  end.

(** The leading two of three axes are kept. *)
Definition keeps_two_axes {K : Backend} (x y : Tensor) : Prop :=
  forall a b d, shape x = [a; b; d] -> exists d', shape y = [a; b; d'].

(** Two tensors of the same shape. *)
Definition same_shape {K : Backend} (x y : Tensor) : Prop := shape x = shape y.

(** What a call shows of itself when only shapes are looked at: the
    exception, or the shape of the result. *)
Definition shape_outcome {K : Backend} (r : error + (Tensor * Generator))
  : error + list Z :=
  match r with
  | inl e => inl e
  | inr (y, _) => inr (shape y)
  end.

(** Two computations that end alike from any two generators: with the
    same exception, or with results related by [RA]. *)
Definition alike {A} (RA : A -> A -> Prop) (c1 c2 : M A) : Prop :=
  forall p g1 g2,
    match c1 p g1, c2 p g2 with
    | inl e1, inl e2 => e1 = e2
    | inr (a1, _), inr (a2, _) => RA a1 a2
    | _, _ => False
    end.

(** * Properties *)

(** ** Arithmetic of the convolution sizes *)

Lemma half_of_odd (r : Z) : (2 * r + 1) / 2 = r.
Proof.
  symmetry. apply Z.div_unique with (r := 1); lia.
Qed.

(** With stride 1, an odd kernel and padding [kernel / 2], a spatial axis
    keeps its length. *)
Lemma out_size_same (cin cout r n : Z) :
  nn.Conv2d.out_size (nn.Conv2d.new cin cout (2 * r + 1) 1 ((2 * r + 1) / 2)) n = n.
Proof.
  cbv [nn.Conv2d.out_size nn.Conv2d.padding nn.Conv2d.kernel_size nn.Conv2d.stride].
  rewrite half_of_odd, Z.div_1_r. lia.
Qed.

(** With stride 1, an even kernel and padding [kernel / 2], it grows by
    one. *)
Lemma out_size_even_kernel (cin cout r n : Z) :
  nn.Conv2d.out_size (nn.Conv2d.new cin cout (2 * r) 1 ((2 * r) / 2)) n = n + 1.
Proof.
  cbv [nn.Conv2d.out_size nn.Conv2d.padding nn.Conv2d.kernel_size nn.Conv2d.stride].
  replace (2 * r) with (r * 2) by lia.
  rewrite Z.div_mul by lia. rewrite Z.div_1_r. lia.
Qed.

(** The first convolution of the model: kernel 3, padding 1. *)
Lemma out_size_first (cin cout s n : Z) :
  nn.Conv2d.out_size (nn.Conv2d.new cin cout 3 s (3 / 2)) n = (n - 1) / s + 1.
Proof.
  cbv [nn.Conv2d.out_size nn.Conv2d.padding nn.Conv2d.kernel_size nn.Conv2d.stride].
  change (3 / 2) with 1.
  replace (n + 2 * 1 - (3 - 1) - 1) with (n - 1) by lia. reflexivity.
Qed.

Lemma halving_even (n : Z) : (n - 1) / 2 + 1 = n / 2 <-> Z.even n = true.
Proof.
  rewrite (Z.div_mod n 2) at 1 by lia.
  rewrite Zeven_mod.
  assert (H := Z.mod_pos_bound n 2 ltac:(lia)).
  destruct (Z.eq_dec (n mod 2) 0) as [E | E].
  - rewrite E. replace (2 * (n / 2) + 0 - 1) with ((n / 2 - 1) * 2 + 1) by lia.
    rewrite Z.div_add_l by lia. change (1 / 2) with 0. split; [reflexivity | lia].
  - assert (E1 : n mod 2 = 1) by lia. rewrite E1.
    replace (2 * (n / 2) + 1 - 1) with (n / 2 * 2) by lia.
    rewrite Z.div_mul by lia. split; [lia | discriminate].
Qed.

Lemma range_length (n : Z) : length (range n) = Z.to_nat n.
Proof.
  unfold range. now rewrite length_map, length_seq.
Qed.

Lemma range_nonpos (n : Z) : n <= 0 -> range n = [].
Proof.
  intros H. unfold range. replace (Z.to_nat n) with 0%nat by lia. reflexivity.
Qed.

Lemma range_pos (n : Z) :
  1 <= n -> range n = 0 :: map (fun i => i + 1) (range (n - 1)).
Proof.
  intros H. unfold range.
  replace (Z.to_nat n) with (S (Z.to_nat (n - 1))) by lia.
  simpl. f_equal. rewrite <- seq_shift, !map_map.
  apply map_ext. intros a. lia.
Qed.

Lemma Qle_bool_true (a b : Q) : (a <= b)%Q -> Qle_bool a b = true.
Proof.
  apply Qle_bool_iff.
Qed.

(** ** The forward monad *)

Section Monad.
Context {A B : Type}.

Lemma bind_inr (c : M A) (k : A -> M B) p g a g' :
  c p g = inr (a, g') -> bind c k p g = k a p g'.
Proof.
  intros H. unfold bind. now rewrite H.
Qed.

Lemma bind_inl (c : M A) (k : A -> M B) p g e :
  c p g = inl e -> bind c k p g = inl e.
Proof.
  intros H. unfold bind. now rewrite H.
Qed.

Lemma bind_inv (c : M A) (k : A -> M B) p g b g'' :
  bind c k p g = inr (b, g'') ->
  exists a g', c p g = inr (a, g') /\ k a p g' = inr (b, g'').
Proof.
  unfold bind. destruct (c p g) as [e | [a g']]; [discriminate |].
  intros H. now exists a, g'.
Qed.

Lemma post_ret (a : A) (Q : A -> Prop) : Q a -> post (ret a) Q.
Proof.
  intros H p g a' g' E. inversion E. now subst.
Qed.

Lemma post_raise (w : exn) (Q : A -> Prop) : post (raise w) Q.
Proof.
  intros p g a g' E. discriminate.
Qed.

Lemma post_call (s : seg) (c : M A) (Q : A -> Prop) : post c Q -> post (call s c) Q.
Proof.
  intros H p g a g' E. exact (H _ _ _ _ E).
Qed.

Lemma post_weaken (c : M A) (Q Q' : A -> Prop) :
  post c Q -> (forall a, Q a -> Q' a) -> post c Q'.
Proof.
  intros H I p g a g' E. eauto.
Qed.

Lemma post_bind (c : M A) (k : A -> M B) (Q : A -> Prop) (Q' : B -> Prop) :
  post c Q -> (forall a, Q a -> post (k a) Q') -> post (bind c k) Q'.
Proof.
  intros H I p g b g'' E.
  destruct (bind_inv _ _ _ _ _ _ E) as (a & g' & E1 & E2).
  exact (I a (H _ _ _ _ E1) _ _ _ _ E2).
Qed.

Lemma fails_raise (w : exn) : fails (@raise A w).
Proof.
  intros p g. eexists. reflexivity.
Qed.

Lemma fails_bind (c : M A) (k : A -> M B) (Q : A -> Prop) :
  post c Q -> (forall a, Q a -> fails (k a)) -> fails (bind c k).
Proof.
  intros H I p g. unfold bind.
  destruct (c p g) as [e | [a g']] eqn:E.
  - now exists e.
  - exact (I a (H _ _ _ _ E) p g').
Qed.

Lemma fails_bind_l (c : M A) (k : A -> M B) : fails c -> fails (bind c k).
Proof.
  intros H p g. destruct (H p g) as [e E]. exists e. now apply bind_inl.
Qed.

Variable R : Generator -> Generator -> Prop.

Lemma agree_ret (a : A) : agree R (ret a).
Proof.
  intros p g1 g2 H. simpl. auto.
Qed.

Lemma agree_raise (w : exn) : agree R (@raise A w).
Proof.
  intros p g1 g2 H. reflexivity.
Qed.

Lemma agree_call (s : seg) (c : M A) : agree R c -> agree R (call s c).
Proof.
  intros H p g1 g2 HR. exact (H _ _ _ HR).
Qed.

Lemma agree_bind (c : M A) (k : A -> M B) :
  agree R c -> (forall a, agree R (k a)) -> agree R (bind c k).
Proof.
  intros H I p g1 g2 HR. unfold bind.
  specialize (H p g1 g2 HR).
  destruct (c p g1) as [e1 | [a1 h1]], (c p g2) as [e2 | [a2 h2]]; try easy.
  destruct H as [-> HR']. exact (I a2 p h1 h2 HR').
Qed.

End Monad.

Lemma agree_whoami R : agree R whoami.
Proof.
  intros p g1 g2 H. simpl. auto.
Qed.

Lemma agree_same_draws (n : nat) : agree same_draws (draw n).
Proof.
  intros p g1 g2 H. simpl. split.
  - apply map_ext. intros i. apply H.
  - intros i. apply H.
Qed.

(** Two runs that agree have the same outcome. *)
Lemma agree_outcome {A} R (c : M A) p g1 g2 :
  agree R c -> R g1 g2 -> outcome (c p g1) = outcome (c p g2).
Proof.
  intros H HR. specialize (H p g1 g2 HR).
  destruct (c p g1) as [e1 | [a1 h1]], (c p g2) as [e2 | [a2 h2]]; simpl; try easy.
  - now subst.
  - destruct H as [-> _]. reflexivity.
Qed.

(** ** The tensor operations and the library layers *)

(** The units that agree whatever the generators hold are collected in a
    hint database, for the forward functions that call them. *)
Create HintDb fwd discriminated.

(** Follows the structure of a forward function: one step per bind, call,
    [if] and [match]; what is left are the calls of other units. *)
Ltac agree_branches :=
  repeat lazymatch goal with
    | |- agree _ (bind _ _) => apply agree_bind; [| intros ? ]
    | |- agree _ (call _ _) => apply agree_call
    | |- agree _ (ret _) => apply agree_ret
    | |- agree _ (raise _) => apply agree_raise
    | |- agree _ whoami => apply agree_whoami
    | |- agree _ (if ?b then _ else _) => destruct b
    | |- agree _ (match ?t with _ => _ end) => destruct t
    | |- agree _ (let _ := _ in _) => cbv zeta
    end.

Section Ops.
Context {K : Backend}.

Lemma broadcastable_refl (s : list Z) : broadcastable s s = true.
Proof.
  unfold broadcastable. rewrite Nat.leb_refl, Nat.sub_diag. simpl.
  induction s as [| d s IH]; simpl; [reflexivity |].
  now rewrite Z.eqb_refl, IH.
Qed.

Lemma broadcast_index_same (s idx : list Z) :
  length idx = length s -> broadcast_index s s idx = idx.
Proof.
  unfold broadcast_index. rewrite Nat.sub_diag. simpl.
  revert idx. induction s as [| d s IH]; intros [| i idx] H; simpl in *;
    try discriminate; [reflexivity |].
  rewrite Z.eqb_refl. f_equal. apply IH. lia.
Qed.

Lemma iadd_ok (x other : Tensor) p g :
  shape other = shape x ->
  exists y, iadd x other p g = inr (y, g)
            /\ shape y = shape x
            /\ forall idx, length idx = length (shape x) ->
                 data y idx = s_add (data x idx) (data other idx).
Proof.
  intros H. unfold iadd. rewrite H, broadcastable_refl.
  eexists. split; [reflexivity |]. split; [reflexivity |].
  intros idx L. simpl. now rewrite broadcast_index_same.
Qed.

Lemma iadd_post (x other : Tensor) :
  post (iadd x other) (fun y => shape y = shape x).
Proof.
  unfold iadd. destruct (broadcastable _ _).
  - now apply post_ret.
  - apply post_raise.
Qed.

Lemma iadd_agree R (x other : Tensor) : agree R (iadd x other).
Proof.
  unfold iadd. agree_branches.
Qed.

Lemma transpose_post (d0 d1 : nat) (x : Tensor) :
  post (transpose d0 d1 x)
       (fun y => shape y = swap d0 d1 0 (shape x)
                 /\ (d0 < ndim x)%nat /\ (d1 < ndim x)%nat).
Proof.
  unfold transpose.
  destruct (Nat.ltb_spec d0 (ndim x)); [| apply post_raise].
  destruct (Nat.ltb_spec d1 (ndim x)); [| apply post_raise].
  apply post_ret. auto.
Qed.

Lemma transpose_agree R d0 d1 (x : Tensor) : agree R (transpose d0 d1 x).
Proof.
  unfold transpose. agree_branches.
Qed.

Lemma view_post (s : list Z) (x : Tensor) : post (view s x) (fun y => shape y = s).
Proof.
  unfold view. destruct (_ && _); [now apply post_ret | apply post_raise].
Qed.

Lemma view_agree R s (x : Tensor) : agree R (view s x).
Proof.
  unfold view. agree_branches.
Qed.

Lemma getitem_post (sizes : list Z) (i : nat) :
  post (getitem sizes i) (fun d => nth_error sizes i = Some d).
Proof.
  unfold getitem. destruct (nth_error sizes i); [now apply post_ret | apply post_raise].
Qed.

Lemma getitem_agree R sizes i : agree R (getitem sizes i).
Proof.
  unfold getitem. agree_branches.
Qed.

(** *** Dropout *)

Lemma dropout_ok (x : Tensor) (pr : Q) (tr : bool) p g :
  (0 <= pr)%Q -> (pr <= 1)%Q ->
  exists y g', F.dropout x pr tr p g = inr (y, g') /\ shape y = shape x.
Proof.
  intros H0 H1. unfold F.dropout.
  rewrite (Qle_bool_true _ _ H0), (Qle_bool_true _ _ H1). simpl.
  destruct (_ || _); [now exists x, g |].
  destruct (Qeq_bool pr 1); [eexists; exists g; split; reflexivity |].
  unfold bind, draw, ret. eexists; eexists; split; reflexivity.
Qed.

Lemma dropout_post (x : Tensor) (pr : Q) (tr : bool) :
  post (F.dropout x pr tr) (fun y => shape y = shape x).
Proof.
  unfold F.dropout.
  destruct (_ || _); [apply post_raise |].
  destruct (_ || _); [now apply post_ret |].
  destruct (Qeq_bool pr 1); [now apply post_ret |].
  eapply post_bind with (Q := fun _ => True).
  - intros p g a g' _. exact I.
  - intros mask _. now apply post_ret.
Qed.

(** An inactive dropout returns its input and leaves the generator alone:
    two runs agree whatever the generators hold.  An active one agrees as
    soon as the draws do. *)
Lemma dropout_agree R (d : nn.Dropout.t) (x : Tensor) :
  tame R d -> agree R (nn.Dropout.forward d x).
Proof.
  unfold tame, inactive, nn.Dropout.forward, F.dropout. intros H.
  destruct (negb (Qle_bool 0 _) || _); [apply agree_raise |].
  destruct (Qeq_bool (nn.Dropout.p d) 0) eqn:E0; simpl; [apply agree_ret |].
  destruct (nn.Dropout.training d); simpl.
  - destruct H as [H | H]; [discriminate |].
    destruct (numel x =? 0)%nat; [apply agree_ret |].
    destruct (Qeq_bool _ 1); [apply agree_ret |].
    apply agree_bind; [apply H | intros; apply agree_ret].
  - apply agree_ret.
Qed.

(** *** LayerNorm, Linear, Conv2d, GRU *)

Lemma LayerNorm_post (self : nn.LayerNorm.t) (x : Tensor) :
  post (nn.LayerNorm.forward self x)
       (fun y => shape y = shape x
                 /\ exists lead, split_last (shape x)
                                 = Some (lead, nn.LayerNorm.normalized_shape self)).
Proof.
  unfold nn.LayerNorm.forward.
  apply post_bind with (Q := fun _ => True); [easy |]. intros me _.
  destruct (split_last (shape x)) as [[lead d] |]; [| apply post_raise].
  destruct (Z.eqb_spec d (nn.LayerNorm.normalized_shape self)); [| apply post_raise].
  apply post_ret. subst. eauto.
Qed.

Lemma LayerNorm_agree R self (x : Tensor) : agree R (nn.LayerNorm.forward self x).
Proof.
  unfold nn.LayerNorm.forward. agree_branches.
Qed.

Lemma Linear_post (self : nn.Linear.t) (x : Tensor) :
  post (nn.Linear.forward self x)
       (fun y => exists lead,
          split_last (shape x) = Some (lead, nn.Linear.in_features self)
          /\ shape y = lead ++ [nn.Linear.out_features self]).
Proof.
  unfold nn.Linear.forward.
  apply post_bind with (Q := fun _ => True); [easy |]. intros me _.
  destruct (split_last (shape x)) as [[lead d] |]; [| apply post_raise].
  destruct (Z.eqb_spec d (nn.Linear.in_features self)); [| apply post_raise].
  apply post_ret. subst. eauto.
Qed.

Lemma Linear_agree R self (x : Tensor) : agree R (nn.Linear.forward self x).
Proof.
  unfold nn.Linear.forward. agree_branches.
Qed.

Lemma Conv2d_ok (self : nn.Conv2d.t) (x : Tensor) n c h w s p g :
  shape x = [n; c; h; w] ->
  nn.Conv2d.sample_shape self c h w = inr s ->
  exists y, nn.Conv2d.forward self x p g = inr (y, g)
            /\ shape y = n :: s
            /\ forall b rest,
                 data y (b :: rest)
                 = k_conv2d p (nn.Conv2d.hyper self) [c; h; w]
                            (fun i => data x (b :: i)) rest.
Proof.
  intros Hx Hs. unfold nn.Conv2d.forward, bind, whoami. rewrite Hx, Hs.
  eexists. split; [reflexivity |]. split; reflexivity.
Qed.

Lemma sample_shape_length (self : nn.Conv2d.t) c h w s :
  nn.Conv2d.sample_shape self c h w = inr s -> length s = 3%nat.
Proof.
  unfold nn.Conv2d.sample_shape.
  repeat match goal with |- context [if ?b then _ else _] => destruct b end;
    intros E; inversion E; reflexivity.
Qed.

(** A convolution takes three or four axes, returns as many, and keeps
    the leading axis of a batched input. *)
Lemma Conv2d_post (self : nn.Conv2d.t) (x : Tensor) :
  post (nn.Conv2d.forward self x)
       (fun y => length (shape y) = length (shape x)
                 /\ (length (shape x) = 3 \/ length (shape x) = 4)%nat
                 /\ (length (shape x) = 4%nat -> batch_size y = batch_size x)).
Proof.
  unfold nn.Conv2d.forward.
  apply post_bind with (Q := fun _ => True); [easy |]. intros me _.
  destruct (shape x) as [| n [| c [| h [| w [| ? ?]]]]] eqn:Hx; try apply post_raise.
  - destruct (nn.Conv2d.sample_shape self n c h) as [e | s] eqn:Hs; [apply post_raise |].
    apply post_ret. simpl. rewrite (sample_shape_length _ _ _ _ _ Hs).
    repeat split; [now left | discriminate].
  - destruct (nn.Conv2d.sample_shape self c h w) as [e | s] eqn:Hs; [apply post_raise |].
    apply post_ret. unfold batch_size. simpl. rewrite Hx, (sample_shape_length _ _ _ _ _ Hs).
    repeat split; now right.
Qed.

Lemma Conv2d_agree R self (x : Tensor) : agree R (nn.Conv2d.forward self x).
Proof.
  unfold nn.Conv2d.forward. agree_branches.
Qed.

Lemma GRU_post (self : nn.GRU.t) (x : Tensor) :
  post (nn.GRU.forward self x)
       (fun r => length (shape (fst r)) = length (shape x)
                 /\ batch_size (fst r) = batch_size x).
Proof.
  unfold nn.GRU.forward.
  apply post_bind with (Q := fun _ => True); [easy |]. intros me _.
  unfold batch_size.
  destruct (shape x) as [| d0 [| d1 [| d [| ? ?]]]]; try apply post_raise.
  - destruct (negb _); [apply post_raise |].
    destruct (_ <=? _); [apply post_raise |]. apply post_ret. simpl. auto.
  - destruct (negb _); [apply post_raise |].
    destruct (_ <=? _); [apply post_raise |]. apply post_ret. simpl. auto.
Qed.

Lemma GRU_agree R self (x : Tensor) : agree R (nn.GRU.forward self x).
Proof.
  unfold nn.GRU.forward. agree_branches.
Qed.

End Ops.

#[local] Hint Resolve iadd_agree transpose_agree view_agree getitem_agree
  dropout_agree LayerNorm_agree Linear_agree Conv2d_agree GRU_agree : fwd.

(** ** Exchanging two axes *)

Lemma swap_length {A} i j (d : A) (l : list A) : length (swap i j d l) = length l.
Proof.
  unfold swap. now rewrite length_map, length_seq.
Qed.

Lemma swap_nth {A} i j (d : A) (l : list A) (k : nat) :
  (k < length l)%nat ->
  nth k (swap i j d l) d
  = nth (if Nat.eqb k i then j else if Nat.eqb k j then i else k) l d.
Proof.
  intros H. unfold swap.
  set (f := fun k => nth (if Nat.eqb k i then j else if Nat.eqb k j then i else k) l d).
  rewrite (nth_indep _ d (f 0%nat)) by now rewrite length_map, length_seq.
  rewrite (map_nth f), seq_nth by assumption. reflexivity.
Qed.

Lemma swap_involutive {A} i j (d : A) (l : list A) :
  (i < length l)%nat -> (j < length l)%nat -> swap i j d (swap i j d l) = l.
Proof.
  intros Hi Hj. apply nth_ext with (d := d) (d' := d).
  - now rewrite !swap_length.
  - intros k Hk. rewrite !swap_length in Hk.
    rewrite swap_nth by now rewrite swap_length.
    rewrite swap_nth.
    + destruct (Nat.eqb_spec k i) as [-> | Hki].
      * rewrite Nat.eqb_refl. destruct (Nat.eqb_spec j i); congruence.
      * destruct (Nat.eqb_spec k j) as [-> | Hkj].
        -- now rewrite Nat.eqb_refl.
        -- destruct (Nat.eqb_spec k i), (Nat.eqb_spec k j); congruence.
    + destruct (Nat.eqb k i); [assumption |]. destruct (Nat.eqb k j); assumption.
Qed.

(** ** The normalization wrapper *)

Section CNNLayerNormFacts.
Context {K : Backend}.

Lemma CNNLayerNorm_ok (self : CNNLayerNorm.t) (x : Tensor) b c f t p g :
  shape x = [b; c; f; t] ->
  f = nn.LayerNorm.normalized_shape (CNNLayerNorm.layer_norm self) ->
  exists y,
    CNNLayerNorm.forward self x p g = inr (y, g)
    /\ shape y = shape x
    /\ forall bi ci fi ti,
         data y [bi; ci; fi; ti]
         = nth (Z.to_nat fi)
               (k_layer_norm (p ++ [Attr "layer_norm"])
                  (map (fun j => data x [bi; ci; j; ti]) (range f)))
               s_zero.
Proof.
  intros Hx Hf.
  unfold CNNLayerNorm.forward, transpose, contiguous, call, bind, ret,
    nn.LayerNorm.forward, whoami, ndim.
  rewrite Hx. simpl. rewrite <- Hf, Z.eqb_refl. simpl.
  eexists. split; [reflexivity |]. split; [reflexivity |]. reflexivity.
Qed.

Lemma CNNLayerNorm_mismatch (self : CNNLayerNorm.t) (x : Tensor) b c f t p g :
  shape x = [b; c; f; t] ->
  f <> nn.LayerNorm.normalized_shape (CNNLayerNorm.layer_norm self) ->
  CNNLayerNorm.forward self x p g
  = inl {| site := p ++ [Attr "layer_norm"];
           what := NormShape (nn.LayerNorm.normalized_shape (CNNLayerNorm.layer_norm self))
                             [b; c; t; f] |}.
Proof.
  intros Hx Hf.
  unfold CNNLayerNorm.forward, transpose, contiguous, call, bind, ret,
    nn.LayerNorm.forward, whoami, ndim.
  rewrite Hx. simpl.
  destruct (Z.eqb_spec f (nn.LayerNorm.normalized_shape (CNNLayerNorm.layer_norm self)));
    [contradiction | reflexivity].
Qed.

Lemma CNNLayerNorm_post (self : CNNLayerNorm.t) (x : Tensor) :
  post (CNNLayerNorm.forward self x)
       (fun y => shape y = shape x /\ (4 <= length (shape x))%nat).
Proof.
  unfold CNNLayerNorm.forward, contiguous.
  eapply post_bind; [apply transpose_post |]. intros x1 (S1 & L2 & L3).
  eapply post_bind; [now apply post_ret with (Q := fun y => y = x1) |]. intros ? ->.
  eapply post_bind; [apply post_call, LayerNorm_post |]. intros x2 (S2 & _).
  eapply post_bind; [apply transpose_post |]. intros x3 (S3 & _ & _).
  apply post_ret. unfold ndim in *.
  rewrite S3, S2, S1, swap_involutive by assumption. split; [reflexivity | lia].
Qed.

Lemma CNNLayerNorm_agree R (self : CNNLayerNorm.t) (x : Tensor) :
  agree R (CNNLayerNorm.forward self x).
Proof.
  unfold CNNLayerNorm.forward, contiguous.
  agree_branches; auto with fwd.
Qed.

End CNNLayerNormFacts.

#[local] Hint Resolve CNNLayerNorm_agree : fwd.

(** Advances the forward function in the goal by one bind whose result
    is known. *)
Ltac step E :=
  lazymatch goal with
  | |- context [bind ?c ?k ?p ?g] =>
      rewrite (bind_inr c k p g _ _ E); cbv beta zeta
  end.

(** ** The residual block *)

Section ResidualCNNFacts.
Context {K : Backend}.

Lemma sample_shape_same (cin cout r h w : Z) :
  1 <= cout -> 0 <= r -> 1 <= h -> 1 <= w ->
  nn.Conv2d.sample_shape (nn.Conv2d.new cin cout (2 * r + 1) 1 ((2 * r + 1) / 2)) cin h w
  = inr [cout; h; w].
Proof.
  intros Hc Hr Hh Hw. unfold nn.Conv2d.sample_shape. rewrite !out_size_same.
  cbv [nn.Conv2d.padding nn.Conv2d.kernel_size nn.Conv2d.stride
       nn.Conv2d.in_channels nn.Conv2d.out_channels].
  rewrite half_of_odd, Z.eqb_refl. simpl negb.
  destruct (Z.leb_spec 1 0); [lia |].
  destruct (Z.ltb_spec r 0); [lia |].
  destruct (Z.leb_spec (2 * r + 1) 0); [lia |].
  destruct (Z.ltb_spec cout 1); [lia |].
  destruct (Z.ltb_spec (h + 2 * r) (2 * r + 1)); [lia |].
  destruct (Z.ltb_spec (w + 2 * r) (2 * r + 1)); [lia |].
  reflexivity.
Qed.

(** A block with stride 1, an odd kernel and as many output as input
    channels, stage by stage: the first normalization returns [n1], the
    first dropout on its GELU returns [d1], the first convolution returns
    [c1], and likewise [n2], [d2], [c2]; the block returns [c2] plus its
    input.  Every stage returns the shape of the input; only the dropouts
    move the generator. *)
Lemma ResidualCNN_stages (c r nf : Z) (pr : Q) (x : Tensor) b t p g :
  1 <= c -> 0 <= r -> 1 <= nf -> 1 <= t -> (0 <= pr)%Q -> (pr <= 1)%Q ->
  shape x = [b; c; nf; t] ->
  let self := ResidualCNN.__init__ c c (2 * r + 1) 1 pr nf in
  exists n1 d1 c1 n2 d2 c2 y g1 g2,
    CNNLayerNorm.forward (ResidualCNN.layer_norm1 self) x
      (p ++ [Attr "layer_norm1"]) g = inr (n1, g)
    /\ nn.Dropout.forward (ResidualCNN.dropout1 self) (F.gelu n1)
         (p ++ [Attr "dropout1"]) g = inr (d1, g1)
    /\ nn.Conv2d.forward (ResidualCNN.cnn1 self) d1 (p ++ [Attr "cnn1"]) g1 = inr (c1, g1)
    /\ CNNLayerNorm.forward (ResidualCNN.layer_norm2 self) c1
         (p ++ [Attr "layer_norm2"]) g1 = inr (n2, g1)
    /\ nn.Dropout.forward (ResidualCNN.dropout2 self) (F.gelu n2)
         (p ++ [Attr "dropout2"]) g1 = inr (d2, g2)
    /\ nn.Conv2d.forward (ResidualCNN.cnn2 self) d2 (p ++ [Attr "cnn2"]) g2 = inr (c2, g2)
    /\ ResidualCNN.forward self x p g = inr (y, g2)
    /\ Forall (fun z => shape z = shape x) [n1; d1; c1; n2; d2; c2; y]
    /\ forall bi ci fi ti,
         data y [bi; ci; fi; ti]
         = s_add (data c2 [bi; ci; fi; ti]) (data x [bi; ci; fi; ti])
         /\ data c2 [bi; ci; fi; ti]
            = k_conv2d (p ++ [Attr "cnn2"]) (c, 2 * r + 1, 1, (2 * r + 1) / 2)
                       [c; nf; t] (fun i => data d2 (bi :: i)) [ci; fi; ti].
Proof.
  intros Hc Hr Hnf Ht Hp0 Hp1 Hx self.
  destruct (CNNLayerNorm_ok (ResidualCNN.layer_norm1 self) x b c nf t
              (p ++ [Attr "layer_norm1"]) g Hx eq_refl) as (x1 & E1 & S1 & _).
  destruct (dropout_ok (F.gelu x1) pr true (p ++ [Attr "dropout1"]) g Hp0 Hp1)
    as (x2 & g2 & E2 & S2).
  simpl in S2. rewrite S1, Hx in S2.
  destruct (Conv2d_ok (ResidualCNN.cnn1 self) x2 b c nf t _ (p ++ [Attr "cnn1"]) g2 S2
              (sample_shape_same c c r nf t Hc Hr Hnf Ht)) as (x3 & E3 & S3 & _).
  destruct (CNNLayerNorm_ok (ResidualCNN.layer_norm2 self) x3 b c nf t
              (p ++ [Attr "layer_norm2"]) g2 S3 eq_refl) as (x4 & E4 & S4 & _).
  destruct (dropout_ok (F.gelu x4) pr true (p ++ [Attr "dropout2"]) g2 Hp0 Hp1)
    as (x5 & g5 & E5 & S5).
  simpl in S5. rewrite S4, S3 in S5.
  destruct (Conv2d_ok (ResidualCNN.cnn2 self) x5 b c nf t _ (p ++ [Attr "cnn2"]) g5 S5
              (sample_shape_same c c r nf t Hc Hr Hnf Ht)) as (x6 & E6 & S6 & D6).
  destruct (iadd_ok x6 x p g5 (eq_trans Hx (eq_sym S6))) as (y & E7 & S7 & D7).
  exists x1, x2, x3, x4, x5, x6, y, g2, g5.
  split; [exact E1 |]. split; [exact E2 |]. split; [exact E3 |].
  split; [exact E4 |]. split; [exact E5 |]. split; [exact E6 |].
  split.
  { unfold ResidualCNN.forward.
    step E1. step E2. step E3. step E4. step E5. step E6. step E7. reflexivity. }
  split.
  { repeat apply Forall_cons; try apply Forall_nil; congruence. }
  intros bi ci fi ti. split.
  - apply D7. now rewrite S6.
  - apply D6.
Qed.

(** In short: the block returns the shape it is given; each element of the
    result is the output of the second convolution plus the input
    element. *)
Lemma ResidualCNN_ok (c r nf : Z) (pr : Q) (x : Tensor) b t p g :
  1 <= c -> 0 <= r -> 1 <= nf -> 1 <= t -> (0 <= pr)%Q -> (pr <= 1)%Q ->
  shape x = [b; c; nf; t] ->
  exists y u g',
    ResidualCNN.forward (ResidualCNN.__init__ c c (2 * r + 1) 1 pr nf) x p g = inr (y, g')
    /\ shape y = shape x
    /\ shape u = shape x
    /\ forall bi ci fi ti,
         data y [bi; ci; fi; ti]
         = s_add (k_conv2d (p ++ [Attr "cnn2"]) (c, 2 * r + 1, 1, (2 * r + 1) / 2)
                           [c; nf; t] (fun i => data u (bi :: i)) [ci; fi; ti])
                 (data x [bi; ci; fi; ti]).
Proof.
  intros Hc Hr Hnf Ht Hp0 Hp1 Hx.
  destruct (ResidualCNN_stages c r nf pr x b t p g Hc Hr Hnf Ht Hp0 Hp1 Hx)
    as (n1 & d1 & c1 & n2 & d2 & c2 & y & g1 & g2 & _ & _ & _ & _ & _ & _ & E & S & D).
  exists y, d2, g2. split; [exact E |].
  split; [exact (Forall_inv (Forall_inv_tail (Forall_inv_tail (Forall_inv_tail
                   (Forall_inv_tail (Forall_inv_tail (Forall_inv_tail S))))))) |].
  split; [exact (Forall_inv (Forall_inv_tail (Forall_inv_tail (Forall_inv_tail
                   (Forall_inv_tail S))))) |].
  intros bi ci fi ti. destruct (D bi ci fi ti) as (Dy & Dc). now rewrite Dy, Dc.
Qed.

(** Whatever its configuration, a block that returns keeps the leading
    axis; its input and its result are four-dimensional. *)
Lemma ResidualCNN_post (self : ResidualCNN.t) (x : Tensor) :
  post (ResidualCNN.forward self x)
       (fun y => batch_size y = batch_size x
                 /\ length (shape y) = 4%nat /\ length (shape x) = 4%nat).
Proof.
  unfold ResidualCNN.forward.
  eapply post_bind; [apply post_call, CNNLayerNorm_post |]. intros x1 (S1 & L1).
  cbv zeta.
  eapply post_bind; [apply post_call, dropout_post |]. intros x2 S2. simpl in S2.
  eapply post_bind; [apply post_call, Conv2d_post |]. intros x3 (L3 & W3 & B3).
  eapply post_bind; [apply post_call, CNNLayerNorm_post |]. intros x4 (S4 & L4).
  eapply post_bind; [apply post_call, dropout_post |]. intros x5 S5. simpl in S5.
  eapply post_bind; [apply post_call, Conv2d_post |]. intros x6 (L6 & W6 & B6).
  eapply post_bind; [apply iadd_post |]. intros x7 S7.
  apply post_ret.
  assert (Lx : length (shape x) = 4%nat) by (rewrite S2, S1 in W3; lia).
  assert (L2 : length (shape x2) = 4%nat) by now rewrite S2, S1.
  assert (L5 : length (shape x5) = 4%nat) by (rewrite S5, S4, L3; exact L2).
  unfold batch_size in *. rewrite S7, (B6 L5), S5, S4, (B3 L2), S2, S1, L6.
  auto.
Qed.

Lemma ResidualCNN_agree R (self : ResidualCNN.t) (x : Tensor) :
  tame R (ResidualCNN.dropout1 self) -> tame R (ResidualCNN.dropout2 self) ->
  agree R (ResidualCNN.forward self x).
Proof.
  intros T1 T2. unfold ResidualCNN.forward.
  agree_branches; auto with fwd.
Qed.

(** When the feature axis does not have the configured width, the first
    normalization of the block raises. *)
Lemma ResidualCNN_mismatch (self : ResidualCNN.t) (x : Tensor) b c f t p g :
  shape x = [b; c; f; t] ->
  f <> nn.LayerNorm.normalized_shape (CNNLayerNorm.layer_norm (ResidualCNN.layer_norm1 self)) ->
  ResidualCNN.forward self x p g
  = inl {| site := p ++ [Attr "layer_norm1"; Attr "layer_norm"];
           what := NormShape
                     (nn.LayerNorm.normalized_shape
                        (CNNLayerNorm.layer_norm (ResidualCNN.layer_norm1 self)))
                     [b; c; t; f] |}.
Proof.
  intros Hx Hf. unfold ResidualCNN.forward.
  rewrite (bind_inl (call (Attr "layer_norm1") _) _ p g _
             (CNNLayerNorm_mismatch _ x b c f t (p ++ [Attr "layer_norm1"]) g Hx Hf)).
  now rewrite <- app_assoc.
Qed.

End ResidualCNNFacts.

(** ** Containers *)

Section SequentialFacts.
Context {K : Backend} {L : Type}.
Variable fwd : L -> Tensor -> M Tensor.

(** An invariant that every child re-establishes holds after the
    container, which returns. *)
Lemma Sequential_ok (Inv : Tensor -> Prop) (children : list L) :
  (forall l, In l children -> forall x p g, Inv x ->
     exists y g', fwd l x p g = inr (y, g') /\ Inv y) ->
  forall i x p g, Inv x ->
    exists y g', nn.Sequential.forward_from fwd i children x p g = inr (y, g') /\ Inv y.
Proof.
  induction children as [| l rest IH]; intros H i x p g Hx; simpl.
  - now exists x, g.
  - destruct (H l (or_introl eq_refl) x (p ++ [Item i]) g Hx) as (x1 & g1 & E1 & I1).
    destruct (IH (fun l' Hl => H l' (or_intror Hl)) (S i) x1 p g1 I1)
      as (y & g' & E & Iy).
    exists y, g'. split; [| exact Iy]. now step E1.
Qed.

(** A relation between input and result that every child respects is
    respected by the container. *)
Lemma Sequential_post (Rel : Tensor -> Tensor -> Prop) (children : list L) :
  (forall x, Rel x x) ->
  (forall x y z, Rel x y -> Rel y z -> Rel x z) ->
  (forall l x, In l children -> post (fwd l x) (Rel x)) ->
  forall i x, post (nn.Sequential.forward_from fwd i children x) (Rel x).
Proof.
  intros Hrefl Htrans. induction children as [| l rest IH]; intros H i x; simpl.
  - apply post_ret, Hrefl.
  - eapply post_bind; [apply post_call, H; now left |]. intros x1 R1.
    eapply post_weaken; [apply IH; intros; apply H; now right |].
    intros y. now apply Htrans.
Qed.

Lemma Sequential_agree R (children : list L) :
  Forall (fun l => forall x, agree R (fwd l x)) children ->
  forall i x, agree R (nn.Sequential.forward_from fwd i children x).
Proof.
  induction 1 as [| l rest Hl _ IH]; intros i x; simpl.
  - apply agree_ret.
  - apply agree_bind; [apply agree_call, Hl | intros; apply IH].
Qed.

(** A container whose first child raises, raises the same. *)
Lemma Sequential_first_raises (l : L) (rest : list L) x p g e :
  fwd l x (p ++ [Item 0]) g = inl e ->
  nn.Sequential.forward fwd (l :: rest) x p g = inl e.
Proof.
  intros E. unfold nn.Sequential.forward. simpl.
  now rewrite (bind_inl (call (Item 0) _) _ p g e E).
Qed.

End SequentialFacts.

(** ** The recurrent block *)

Section BidirectionalGRUFacts.
Context {K : Backend}.

Lemma GRU_ok (self : nn.GRU.t) (x : Tensor) d0 d1 p g :
  shape x = [d0; d1; nn.GRU.input_size self] ->
  1 <= (if nn.GRU.batch_first self then d1 else d0) ->
  exists y h,
    nn.GRU.forward self x p g = inr ((y, h), g)
    /\ shape y = [d0; d1; nn.GRU.num_directions self * nn.GRU.hidden_size self]
    /\ forall i0 i1 j, data y [i0; i1; j] = gru_output self (data x) d0 d1 p i0 i1 j.
Proof.
  intros Hx Hs. unfold nn.GRU.forward, bind, whoami. rewrite Hx.
  rewrite Z.eqb_refl. simpl negb. cbv iota.
  destruct (Z.leb_spec (if nn.GRU.batch_first self then d1 else d0) 0); [lia |].
  eexists. eexists. split; [reflexivity |]. split; reflexivity.
Qed.

Lemma LayerNorm_ok (self : nn.LayerNorm.t) (x : Tensor) lead p g :
  split_last (shape x) = Some (lead, nn.LayerNorm.normalized_shape self) ->
  exists y,
    nn.LayerNorm.forward self x p g = inr (y, g)
    /\ shape y = shape x
    /\ forall idx, data y idx
                   = nth (trailing idx)
                         (k_layer_norm p (fibre x (nn.LayerNorm.normalized_shape self) idx))
                         s_zero.
Proof.
  intros H. unfold nn.LayerNorm.forward, bind, whoami. rewrite H, Z.eqb_refl.
  eexists. split; [reflexivity |]. split; reflexivity.
Qed.

(** On [(d0, d1, rnn_dim)] with a non-empty time axis the block returns
    [(d0, d1, 2 * hidden_size)]: dropout applied to the output of the
    recurrent layer, which was fed the GELU of the normalized input. *)
Lemma BidirectionalGRU_ok (rnn_dim hidden : Z) (pr : Q) (bf : bool)
      (x : Tensor) d0 d1 p g :
  (0 <= pr)%Q -> (pr <= 1)%Q ->
  shape x = [d0; d1; rnn_dim] ->
  1 <= (if bf then d1 else d0) ->
  let self := BidirectionalGRU.__init__ rnn_dim hidden pr bf in
  exists y u g',
    BidirectionalGRU.forward self x p g = inr (y, g')
    /\ shape y = [d0; d1; 2 * hidden]
    /\ F.dropout u pr true (p ++ [Attr "dropout"]) g = inr (y, g')
    /\ shape u = [d0; d1; 2 * hidden]
    /\ forall i0 i1 j,
         data u [i0; i1; j]
         = gru_output (BidirectionalGRU.BiGRU self)
             (fun idx =>
                s_gelu (nth (trailing idx)
                            (k_layer_norm (p ++ [Attr "layer_norm"]) (fibre x rnn_dim idx))
                            s_zero))
             d0 d1 (p ++ [Attr "BiGRU"]) i0 i1 j.
Proof.
  intros Hp0 Hp1 Hx Hs self.
  destruct (LayerNorm_ok (BidirectionalGRU.layer_norm self) x [d0; d1]
              (p ++ [Attr "layer_norm"]) g) as (x1 & E1 & S1 & D1).
  { now rewrite Hx. }
  destruct (GRU_ok (BidirectionalGRU.BiGRU self) (F.gelu x1) d0 d1 (p ++ [Attr "BiGRU"]) g)
    as (x2 & h & E2 & S2 & D2).
  { simpl. now rewrite S1. }
  { exact Hs. }
  destruct (dropout_ok x2 pr true (p ++ [Attr "dropout"]) g Hp0 Hp1)
    as (y & g' & E3 & S3).
  exists y, x2, g'. repeat split.
  - unfold BidirectionalGRU.forward. step E1. step E2. step E3. reflexivity.
  - now rewrite S3, S2.
  - exact E3.
  - exact S2.
  - intros i0 i1 j. rewrite D2. unfold gru_output.
    do 2 f_equal. f_equal. apply map_ext. intros s'. apply map_ext. intros f.
    simpl. now rewrite D1.
Qed.

(** Whatever its configuration, a block that returns keeps the number of
    axes and the leading axis. *)
Lemma BidirectionalGRU_post (self : BidirectionalGRU.t) (x : Tensor) :
  post (BidirectionalGRU.forward self x)
       (fun y => length (shape y) = length (shape x)
                 /\ batch_size y = batch_size x).
Proof.
  unfold BidirectionalGRU.forward.
  eapply post_bind; [apply post_call, LayerNorm_post |]. intros x1 (S1 & _).
  cbv zeta.
  eapply post_bind; [apply post_call, GRU_post |]. intros [x2 h] (L2 & B2).
  simpl in L2, B2.
  eapply post_bind; [apply post_call, dropout_post |]. intros x3 S3.
  apply post_ret. unfold batch_size in *. rewrite S3, L2, B2. simpl. now rewrite S1.
Qed.

Lemma BidirectionalGRU_agree R (self : BidirectionalGRU.t) (x : Tensor) :
  tame R (BidirectionalGRU.dropout self) ->
  agree R (BidirectionalGRU.forward self x).
Proof.
  intros T. unfold BidirectionalGRU.forward.
  agree_branches; auto with fwd.
Qed.

End BidirectionalGRUFacts.

(** ** Linear layers and the classifier head *)

Lemma split_last_app {A} (l : list A) (a : A) : split_last (l ++ [a]) = Some (l, a).
Proof.
  induction l as [| b l IH]; simpl; [reflexivity | now rewrite IH].
Qed.

Lemma split_last_inv {A} (s lead : list A) (d : A) :
  split_last s = Some (lead, d) -> s = lead ++ [d].
Proof.
  revert lead. induction s as [| a s IH]; intros lead; simpl; [discriminate |].
  destruct (split_last s) as [[i z] |] eqn:E.
  - intros H. inversion H; subst. simpl. f_equal. now apply IH.
  - intros H. inversion H; subst. destruct s as [| b s]; [reflexivity |].
    simpl in E. destruct (split_last s) as [[? ?] |]; discriminate.
Qed.

Section LinearFacts.
Context {K : Backend}.

Lemma same_batch_refl (x : Tensor) : same_batch x x.
Proof.
  split; auto.
Qed.

Lemma same_batch_trans (x y z : Tensor) :
  same_batch x y -> same_batch y z -> same_batch x z.
Proof.
  intros [L1 B1] [L2 B2]. split; [congruence |].
  intros H. rewrite B2, B1; auto. now rewrite L1.
Qed.

Lemma Linear_ok (self : nn.Linear.t) (x : Tensor) lead d p g :
  split_last (shape x) = Some (lead, d) ->
  d = nn.Linear.in_features self ->
  exists y, nn.Linear.forward self x p g = inr (y, g)
            /\ shape y = lead ++ [nn.Linear.out_features self].
Proof.
  intros H ->. unfold nn.Linear.forward, bind, whoami. rewrite H, Z.eqb_refl.
  eexists. split; reflexivity.
Qed.

Lemma Linear_mismatch (self : nn.Linear.t) (x : Tensor) lead d p g :
  split_last (shape x) = Some (lead, d) ->
  d <> nn.Linear.in_features self ->
  nn.Linear.forward self x p g
  = inl {| site := p; what := LinearShape (nn.Linear.in_features self) (shape x) |}.
Proof.
  intros H Hd. unfold nn.Linear.forward, bind, whoami. rewrite H.
  destruct (Z.eqb_spec d (nn.Linear.in_features self)); [contradiction | reflexivity].
Qed.

Lemma Linear_same_batch (self : nn.Linear.t) (x : Tensor) :
  post (nn.Linear.forward self x) (same_batch x).
Proof.
  eapply post_weaken; [apply Linear_post |].
  intros y (lead & Hx & Hy). apply split_last_inv in Hx.
  unfold same_batch, batch_size. rewrite Hx, Hy, !length_app. split; [reflexivity |].
  simpl. destruct lead; simpl; [lia | reflexivity].
Qed.

Lemma Layer_same_batch (self : nn.Layer) (x : Tensor) :
  post (nn.Layer.forward self x) (same_batch x).
Proof.
  destruct self as [l | | d]; simpl.
  - apply Linear_same_batch.
  - apply post_ret. split; auto.
  - eapply post_weaken; [apply dropout_post |].
    intros y S. unfold same_batch, batch_size. now rewrite S.
Qed.

Lemma Layer_agree R (self : nn.Layer) (x : Tensor) :
  tame_layer R self -> agree R (nn.Layer.forward self x).
Proof.
  destruct self as [l | | d]; simpl; intros T.
  - apply Linear_agree.
  - apply agree_ret.
  - now apply dropout_agree.
Qed.

End LinearFacts.

(** ** The model *)

Lemma range_nonneg (n i : Z) : In i (range n) -> 0 <= i.
Proof.
  unfold range. rewrite in_map_iff. intros (k & <- & _). lia.
Qed.

Section ModelFacts.
Context {K : Backend}.

Lemma view_ok (s : list Z) (x : Tensor) p g :
  forallb (Z.leb 0) s = true -> prod s = prod (shape x) ->
  exists y, view s x p g = inr (y, g) /\ shape y = s.
Proof.
  intros H0 H1. unfold view. rewrite H0, H1, Z.eqb_refl.
  eexists. split; reflexivity.
Qed.

Lemma transpose_1_2_ok (x : Tensor) a b c p g :
  shape x = [a; b; c] ->
  exists y, transpose 1 2 x p g = inr (y, g) /\ shape y = [a; c; b].
Proof.
  intros H. unfold transpose, ndim. rewrite H. simpl.
  eexists. split; reflexivity.
Qed.

Lemma first_conv_shape (stride F T : Z) :
  1 <= stride -> 1 <= F -> 1 <= T ->
  nn.Conv2d.sample_shape (nn.Conv2d.new 1 32 3 stride (3 / 2)) 1 F T
  = inr [32; (F - 1) / stride + 1; (T - 1) / stride + 1].
Proof.
  intros Hs HF HT. unfold nn.Conv2d.sample_shape. rewrite !out_size_first.
  cbv [nn.Conv2d.padding nn.Conv2d.kernel_size nn.Conv2d.stride
       nn.Conv2d.in_channels nn.Conv2d.out_channels].
  change (3 / 2) with 1.
  destruct (Z.leb_spec stride 0); [lia |].
  destruct (Z.ltb_spec (F + 2 * 1) 3); [lia |].
  destruct (Z.ltb_spec (T + 2 * 1) 3); [lia |].
  reflexivity.
Qed.

(** The part of [forward] before the recurrent blocks: on a valid input it
    hands [(batch, time', rnn_dim)] to the rest. *)
Lemma forward_front (n_cnn_layers n_rnn_layers rnn_dim n_class n_feats stride : Z)
      (pr : Q) (x : Tensor) B F T p g :
  1 <= stride -> 0 <= B -> 1 <= F -> 1 <= T ->
  (F - 1) / stride + 1 = n_feats / 2 ->
  (0 <= pr)%Q -> (pr <= 1)%Q ->
  shape x = [B; 1; F; T] ->
  let self := SpeechRecognitionModel.__init__ n_cnn_layers n_rnn_layers rnn_dim
                n_class n_feats stride pr in
  exists x1 g1,
    shape x1 = [B; (T - 1) / stride + 1; rnn_dim]
    /\ SpeechRecognitionModel.forward self x p g
       = (x <- call (Attr "birnn_layers")
                    (nn.Sequential.forward BidirectionalGRU.forward
                       (SpeechRecognitionModel.birnn_layers self) x1) ;;
          x <- call (Attr "classifier")
                    (nn.Sequential.forward nn.Layer.forward
                       (SpeechRecognitionModel.classifier self) x) ;;
          ret x) p g1.
Proof.
  intros Hs HB HF HT Hhalf Hp0 Hp1 Hx self.
  set (F' := n_feats / 2). set (T' := (T - 1) / stride + 1).
  assert (HF' : 1 <= F').
  { unfold F'. rewrite <- Hhalf. assert (0 <= (F - 1) / stride) by (apply Z.div_pos; lia). lia. }
  assert (HT' : 1 <= T').
  { unfold T'. assert (0 <= (T - 1) / stride) by (apply Z.div_pos; lia). lia. }
  destruct (Conv2d_ok (SpeechRecognitionModel.cnn self) x B 1 F T _ (p ++ [Attr "cnn"]) g Hx
              (first_conv_shape stride F T Hs HF HT)) as (x1 & E1 & S1 & _).
  rewrite Hhalf in S1. fold F' T' in S1.
  destruct (Sequential_ok ResidualCNN.forward (fun y => shape y = [B; 32; F'; T'])
              (SpeechRecognitionModel.rescnn_layers self)) with
    (i := 0%nat) (x := x1) (p := p ++ [Attr "rescnn_layers"]) (g := g)
    as (x2 & g2 & E2 & S2).
  { intros l Hl y q h Hy. simpl in Hl. apply in_map_iff in Hl. destruct Hl as (_ & <- & _).
    destruct (ResidualCNN_ok 32 1 F' pr y B T' q h) as (z & _ & h' & E & Sz & _);
      try assumption; try lia.
    exists z, h'. split; [exact E | congruence]. }
  { exact S1. }
  assert (G0 : getitem (shape x2) 0 p g2 = inr (B, g2)) by now rewrite S2.
  assert (G1 : getitem (shape x2) 1 p g2 = inr (32, g2)) by now rewrite S2.
  assert (G2 : getitem (shape x2) 2 p g2 = inr (F', g2)) by now rewrite S2.
  assert (G3 : getitem (shape x2) 3 p g2 = inr (T', g2)) by now rewrite S2.
  destruct (view_ok [B; 32 * F'; T'] x2 p g2) as (x3 & E3 & S3).
  { cbn [forallb]. rewrite !andb_true_r, !andb_true_iff, !Z.leb_le. lia. }
  { rewrite S2. cbn [prod fold_right]. ring. }
  destruct (transpose_1_2_ok x3 _ _ _ p g2 S3) as (x4 & E4 & S4).
  destruct (Linear_ok (SpeechRecognitionModel.fully_connected self) x4 [B; T'] (32 * F')
              (p ++ [Attr "fully_connected"]) g2) as (x5 & E5 & S5).
  { now rewrite S4. }
  { cbn [nn.Linear.in_features SpeechRecognitionModel.fully_connected
         SpeechRecognitionModel.__init__ self]. fold F'. lia. }
  exists x5, g2. split; [exact S5 |].
  unfold SpeechRecognitionModel.forward.
  step E1. step E2. step G0. step G1. step G2. step G3. step E3. step E4. step E5.
  reflexivity.
Qed.

(** The recurrent blocks: the first takes [rnn_dim] features, batch
    first; the others take [2 * rnn_dim], time first. *)
Lemma birnn_ok (n_cnn_layers n_rnn_layers rnn_dim n_class n_feats stride : Z)
      (pr : Q) (x : Tensor) B T p g :
  1 <= n_rnn_layers -> 1 <= B -> 1 <= T ->
  (0 <= pr)%Q -> (pr <= 1)%Q ->
  shape x = [B; T; rnn_dim] ->
  let self := SpeechRecognitionModel.__init__ n_cnn_layers n_rnn_layers rnn_dim
                n_class n_feats stride pr in
  exists y g',
    nn.Sequential.forward BidirectionalGRU.forward
      (SpeechRecognitionModel.birnn_layers self) x p g = inr (y, g')
    /\ shape y = [B; T; 2 * rnn_dim].
Proof.
  intros Hn HB HT Hp0 Hp1 Hx self. simpl. rewrite (range_pos n_rnn_layers Hn).
  unfold nn.Sequential.forward. simpl.
  destruct (BidirectionalGRU_ok rnn_dim rnn_dim pr true x B T (p ++ [Item 0]) g)
    as (x1 & _ & g1 & E1 & S1 & _); try assumption.
  destruct (Sequential_ok BidirectionalGRU.forward (fun y => shape y = [B; T; 2 * rnn_dim])
              (map (fun i => BidirectionalGRU.__init__
                               (if i =? 0 then rnn_dim else rnn_dim * 2)
                               rnn_dim pr (i =? 0))
                   (map (fun i => i + 1) (range (n_rnn_layers - 1)))))
    with (i := 1%nat) (x := x1) (p := p) (g := g1) as (y & g' & E & Sy).
  { intros l Hl z q h Hz. rewrite map_map in Hl. apply in_map_iff in Hl.
    destruct Hl as (i & <- & Hi). apply range_nonneg in Hi.
    destruct (Z.eqb_spec (i + 1) 0); [lia |].
    destruct (BidirectionalGRU_ok (rnn_dim * 2) rnn_dim pr false z B T q h)
      as (w & _ & h' & Ew & Sw & _); try assumption.
    { now rewrite Z.mul_comm. }
    now exists w, h'. }
  { exact S1. }
  exists y, g'. split; [| exact Sy]. now step E1.
Qed.

Lemma classifier_ok (n_cnn_layers n_rnn_layers rnn_dim n_class n_feats stride : Z)
      (pr : Q) (x : Tensor) B T p g :
  (0 <= pr)%Q -> (pr <= 1)%Q ->
  shape x = [B; T; 2 * rnn_dim] ->
  let self := SpeechRecognitionModel.__init__ n_cnn_layers n_rnn_layers rnn_dim
                n_class n_feats stride pr in
  exists y g',
    nn.Sequential.forward nn.Layer.forward
      (SpeechRecognitionModel.classifier self) x p g = inr (y, g')
    /\ shape y = [B; T; n_class].
Proof.
  intros Hp0 Hp1 Hx self. unfold nn.Sequential.forward. simpl.
  destruct (Linear_ok (nn.Linear.new (rnn_dim * 2) rnn_dim) x [B; T] (2 * rnn_dim)
              (p ++ [Item 0]) g) as (x1 & E1 & S1).
  { now rewrite Hx. }
  { cbn [nn.Linear.in_features]. lia. }
  destruct (dropout_ok (F.gelu x1) pr true (p ++ [Item 2]) g Hp0 Hp1) as (x2 & g2 & E2 & S2).
  destruct (Linear_ok (nn.Linear.new rnn_dim n_class) x2 [B; T] rnn_dim
              (p ++ [Item 3]) g2) as (x3 & E3 & S3).
  { rewrite S2. simpl. now rewrite S1. }
  { reflexivity. }
  exists x3, g2. split; [| exact S3].
  step E1.
  assert (Eg : call (Item 1) (ret (F.gelu x1)) p g = inr (F.gelu x1, g)) by reflexivity.
  step Eg. step E2. step E3. reflexivity.
Qed.

(** The first layer of the classifier expects [2 * rnn_dim] features. *)
Lemma classifier_mismatch (n_cnn_layers n_rnn_layers rnn_dim n_class n_feats stride : Z)
      (pr : Q) (x : Tensor) lead p g :
  rnn_dim <> 0 ->
  shape x = lead ++ [rnn_dim] ->
  let self := SpeechRecognitionModel.__init__ n_cnn_layers n_rnn_layers rnn_dim
                n_class n_feats stride pr in
  nn.Sequential.forward nn.Layer.forward (SpeechRecognitionModel.classifier self) x p g
  = inl {| site := p ++ [Item 0]; what := LinearShape (rnn_dim * 2) (shape x) |}.
Proof.
  intros Hd Hx self. apply Sequential_first_raises. simpl.
  apply Linear_mismatch with (lead := lead) (d := rnn_dim).
  - rewrite Hx. apply split_last_app.
  - cbn [nn.Linear.in_features]. lia.
Qed.

(** On a valid input, a model with at least one recurrent block returns
    [(batch, time', n_class)]. *)
Lemma forward_ok (n_cnn_layers n_rnn_layers rnn_dim n_class n_feats stride : Z)
      (pr : Q) (x : Tensor) B F T p g :
  1 <= stride -> 1 <= B -> 1 <= F -> 1 <= T ->
  (F - 1) / stride + 1 = n_feats / 2 ->
  1 <= n_rnn_layers ->
  (0 <= pr)%Q -> (pr <= 1)%Q ->
  shape x = [B; 1; F; T] ->
  exists y g',
    SpeechRecognitionModel.forward
      (SpeechRecognitionModel.__init__ n_cnn_layers n_rnn_layers rnn_dim
         n_class n_feats stride pr) x p g = inr (y, g')
    /\ shape y = [B; (T - 1) / stride + 1; n_class].
Proof.
  intros Hs HB HF HT Hhalf Hn Hp0 Hp1 Hx.
  assert (HT' : 1 <= (T - 1) / stride + 1).
  { assert (0 <= (T - 1) / stride) by (apply Z.div_pos; lia). lia. }
  destruct (forward_front n_cnn_layers n_rnn_layers rnn_dim n_class n_feats stride pr
              x B F T p g) as (x1 & g1 & S1 & E); try assumption; try lia.
  destruct (birnn_ok n_cnn_layers n_rnn_layers rnn_dim n_class n_feats stride pr
              x1 B ((T - 1) / stride + 1) (p ++ [Attr "birnn_layers"]) g1)
    as (x2 & g2 & E2 & S2); try assumption.
  destruct (classifier_ok n_cnn_layers n_rnn_layers rnn_dim n_class n_feats stride pr
              x2 B ((T - 1) / stride + 1) (p ++ [Attr "classifier"]) g2)
    as (y & g' & E3 & S3); try assumption.
  exists y, g'. split; [| exact S3].
  rewrite E. step E2. step E3. reflexivity.
Qed.

End ModelFacts.

Section ModelInvariants.
Context {K : Backend}.

(** Whatever the configuration of the model, a forward call that returns
    was given four axes and returns three, the leading one unchanged. *)
Lemma forward_post (self : SpeechRecognitionModel.t) (x : Tensor) :
  post (SpeechRecognitionModel.forward self x)
       (fun y => batch_size y = batch_size x
                 /\ length (shape x) = 4%nat /\ length (shape y) = 3%nat).
Proof.
  unfold SpeechRecognitionModel.forward, nn.Sequential.forward.
  eapply post_bind; [apply post_call, Conv2d_post |]. intros x1 (L1 & W1 & B1).
  eapply post_bind.
  { apply post_call, Sequential_post with (Rel := same_lead).
    - now split.
    - intros a b c [La Ba] [Lb Bb]. split; congruence.
    - intros l a _. eapply post_weaken; [apply ResidualCNN_post |].
      intros b (Bb & Lb & La). split; congruence. }
  intros x2 [L2 B2]. cbv zeta.
  eapply post_bind; [apply getitem_post |]. intros s0 H0.
  eapply post_bind; [apply getitem_post |]. intros s1 H1.
  eapply post_bind; [apply getitem_post |]. intros s2 H2.
  eapply post_bind; [apply getitem_post |]. intros s3 H3.
  eapply post_bind; [apply view_post |]. intros x3 S3.
  eapply post_bind; [apply transpose_post |]. intros x4 (S4 & _ & _).
  eapply post_bind; [apply post_call, Linear_same_batch |]. intros x5 [L5 B5].
  eapply post_bind.
  { apply post_call, Sequential_post with (Rel := same_lead).
    - now split.
    - intros a b c [La Ba] [Lb Bb]. split; congruence.
    - intros l a _. apply BidirectionalGRU_post. }
  intros x6 [L6 B6].
  eapply post_bind.
  { apply post_call, Sequential_post with (Rel := same_batch).
    - apply same_batch_refl.
    - apply same_batch_trans.
    - intros l a _. apply Layer_same_batch. }
  intros x7 [L7 B7].
  apply post_ret.
  assert (Lx2 : (4 <= length (shape x2))%nat).
  { assert (N : nth_error (shape x2) 3 <> None) by congruence.
    apply nth_error_Some in N. lia. }
  assert (Lx : length (shape x) = 4%nat) by lia.
  rewrite S3 in S4. simpl in S4.
  assert (L4 : length (shape x4) = 3%nat) by now rewrite S4.
  assert (Hx2 : batch_size x2 = Some s0).
  { unfold batch_size. destruct (shape x2); [discriminate | exact H0]. }
  unfold batch_size in *.
  rewrite B7, B6, B5 by lia. rewrite S4. simpl. rewrite <- B1, <- B2 by assumption.
  repeat split; [now symmetry | assumption | lia].
Qed.

Lemma tame_same_draws (d : nn.Dropout.t) : tame same_draws d.
Proof.
  right. apply agree_same_draws.
Qed.

(** Two forward calls agree when every dropout module of the model is
    tame for the relation between the generators. *)
Lemma forward_agree R (self : SpeechRecognitionModel.t) (x : Tensor) :
  tame_model R self -> agree R (SpeechRecognitionModel.forward self x).
Proof.
  intros (T1 & T2 & T3).
  unfold SpeechRecognitionModel.forward, nn.Sequential.forward.
  agree_branches; auto with fwd.
  - apply Sequential_agree. eapply Forall_impl; [| exact T1].
    intros b [Tb1 Tb2] y. now apply ResidualCNN_agree.
  - apply Sequential_agree. eapply Forall_impl; [| exact T2].
    intros b Tb y. now apply BidirectionalGRU_agree.
  - apply Sequential_agree. eapply Forall_impl; [| exact T3].
    intros l Tl y. now apply Layer_agree.
Qed.

(** In evaluation mode every dropout module is inactive. *)
Lemma eval_tame R (self : SpeechRecognitionModel.t) :
  tame_model R (SpeechRecognitionModel.eval self).
Proof.
  assert (H : forall d, tame R (nn.Dropout.train false d)).
  { intros d. left. unfold inactive. simpl. apply orb_true_r. }
  unfold tame_model, SpeechRecognitionModel.eval, SpeechRecognitionModel.train. simpl.
  repeat split; apply Forall_map, Forall_forall.
  - intros b _. simpl. auto.
  - intros b _. simpl. auto.
  - intros [l | | d] _; simpl; auto.
Qed.

(** A model built with dropout probability 0 has inactive dropout modules
    only. *)
Lemma zero_dropout_tame R (n_cnn_layers n_rnn_layers rnn_dim n_class n_feats stride : Z)
      (pr : Q) :
  (pr == 0)%Q ->
  tame_model R (SpeechRecognitionModel.__init__ n_cnn_layers n_rnn_layers rnn_dim
                  n_class n_feats stride pr).
Proof.
  intros Hp.
  assert (H : tame R (nn.Dropout.new pr)).
  { left. unfold inactive. simpl. apply orb_true_iff. left. now apply Qeq_bool_iff. }
  unfold tame_model. simpl. repeat split.
  - apply Forall_map, Forall_forall. intros i _. simpl. auto.
  - apply Forall_map, Forall_forall. intros i _. simpl. auto.
  - repeat apply Forall_cons; try apply Forall_nil; simpl; auto.
Qed.

Lemma all_tame_same_draws (self : SpeechRecognitionModel.t) :
  tame_model same_draws self.
Proof.
  unfold tame_model. repeat split; apply Forall_forall.
  - intros b _. split; apply tame_same_draws.
  - intros b _. apply tame_same_draws.
  - intros [l | | d] _; simpl; auto using tame_same_draws.
Qed.

End ModelInvariants.

(** * The properties of the specification *)

Section Claims.
Context {K : Backend}.

(** C1.  The model built with [n_cnn_layers = 3], [n_rnn_layers = 2],
    [rnn_dim = 256], [n_class = 29], [n_feats = 128] and the default stride
    and dropout maps every input of shape (2, 1, 128, 300) to a tensor of
    shape (2, 150, 29), whatever the elements, the parameters and the
    state of the generator are. *)
Theorem C1_end_to_end_shape (d : list Z -> scalar) (p : path) (g : Generator) :
  exists y g',
    SpeechRecognitionModel.forward
      (SpeechRecognitionModel.__init__ 3 2 256 29 128
         SpeechRecognitionModel.default_stride SpeechRecognitionModel.default_dropout)
      {| shape := [2; 1; 128; 300]; data := d |} p g
    = inr (y, g')
    /\ shape y = [2; 150; 29].
Proof.
  destruct (forward_ok 3 2 256 29 128 2 (1 # 10)
              {| shape := [2; 1; 128; 300]; data := d |} 2 128 300 p g)
    as (y & g' & E & S);
    [lia | lia | lia | lia | reflexivity | lia
     | unfold Qle; simpl; lia | unfold Qle; simpl; lia | reflexivity |].
  exists y, g'. split; [exact E | exact S].
Qed.

(** C2 (amended).  [__init__] halves [n_feats] once by integer division.
    The halved value is the width of both normalization layers of every
    residual block, and 32 times it is the input width of the linear
    projection.  The normalization layer of a recurrent block is configured
    with the input width of that block instead: [rnn_dim] for the first
    block, [2 * rnn_dim] for the others. *)
Theorem C2_normalization_widths
        (n_cnn_layers n_rnn_layers rnn_dim n_class n_feats stride : Z) (pr : Q) :
  let m := SpeechRecognitionModel.__init__ n_cnn_layers n_rnn_layers rnn_dim
             n_class n_feats stride pr in
  let width := nn.LayerNorm.normalized_shape in
  Forall (fun b =>
            width (CNNLayerNorm.layer_norm (ResidualCNN.layer_norm1 b)) = n_feats / 2
            /\ width (CNNLayerNorm.layer_norm (ResidualCNN.layer_norm2 b)) = n_feats / 2)
         (SpeechRecognitionModel.rescnn_layers m)
  /\ length (SpeechRecognitionModel.rescnn_layers m) = Z.to_nat n_cnn_layers
  /\ nn.Linear.in_features (SpeechRecognitionModel.fully_connected m) = n_feats / 2 * 32
  /\ map (fun b => width (BidirectionalGRU.layer_norm b))
         (SpeechRecognitionModel.birnn_layers m)
     = map (fun i => if i =? 0 then rnn_dim else rnn_dim * 2) (range n_rnn_layers).
Proof.
  cbv zeta. repeat split.
  - apply Forall_map, Forall_forall. intros i _. now split.
  - cbn [SpeechRecognitionModel.rescnn_layers SpeechRecognitionModel.__init__].
    now rewrite length_map, range_length.
  - cbn [SpeechRecognitionModel.birnn_layers SpeechRecognitionModel.__init__].
    rewrite map_map. apply map_ext. intros i. reflexivity.
Qed.


(** C4 (amended).  A residual block built with stride 1, an odd kernel
    size [2 r + 1] (so that the padding [kernel / 2] is [r]) and as many
    output as input channels [c >= 1] returns, for every input [x] of shape
    (b, c, n_feats, t) with a non-empty feature and time axis, a tensor of
    exactly that shape.  It does so in this sequence: the first
    normalization of [x] returns [n1]; the first dropout, applied to the
    GELU of [n1], returns [d1]; the first convolution of [d1] returns [c1];
    the second normalization of [c1] returns [n2]; the second dropout,
    applied to the GELU of [n2], returns [d2]; the second convolution of
    [d2] returns [c2]; and the block returns [c2] with the saved input
    added element by element.  Every stage returns the shape of the input,
    and only the two dropouts move the random generator. *)
Theorem C4_residual_block_keeps_shape
        (c r n_feats b t : Z) (pr : Q) (d : list Z -> scalar) (p : path) (g : Generator) :
  1 <= c -> 0 <= r -> 1 <= n_feats -> 1 <= t -> (0 <= pr)%Q -> (pr <= 1)%Q ->
  let self := ResidualCNN.__init__ c c (2 * r + 1) 1 pr n_feats in
  let x := {| shape := [b; c; n_feats; t]; data := d |} in
  nn.Conv2d.padding (ResidualCNN.cnn1 self) = r
  /\ nn.Conv2d.padding (ResidualCNN.cnn2 self) = r
  /\ exists n1 d1 c1 n2 d2 c2 y g1 g2,
       CNNLayerNorm.forward (ResidualCNN.layer_norm1 self) x
         (p ++ [Attr "layer_norm1"]) g = inr (n1, g)
       /\ nn.Dropout.forward (ResidualCNN.dropout1 self) (F.gelu n1)
            (p ++ [Attr "dropout1"]) g = inr (d1, g1)
       /\ nn.Conv2d.forward (ResidualCNN.cnn1 self) d1 (p ++ [Attr "cnn1"]) g1
          = inr (c1, g1)
       /\ CNNLayerNorm.forward (ResidualCNN.layer_norm2 self) c1
            (p ++ [Attr "layer_norm2"]) g1 = inr (n2, g1)
       /\ nn.Dropout.forward (ResidualCNN.dropout2 self) (F.gelu n2)
            (p ++ [Attr "dropout2"]) g1 = inr (d2, g2)
       /\ nn.Conv2d.forward (ResidualCNN.cnn2 self) d2 (p ++ [Attr "cnn2"]) g2
          = inr (c2, g2)
       /\ ResidualCNN.forward self x p g = inr (y, g2)
       /\ Forall (fun z => shape z = shape x) [n1; d1; c1; n2; d2; c2; y]
       /\ forall bi ci fi ti,
            data y [bi; ci; fi; ti]
            = s_add (data c2 [bi; ci; fi; ti]) (data x [bi; ci; fi; ti])
            /\ data c2 [bi; ci; fi; ti]
               = k_conv2d (p ++ [Attr "cnn2"]) (nn.Conv2d.hyper (ResidualCNN.cnn2 self))
                          [c; n_feats; t] (fun i => data d2 (bi :: i)) [ci; fi; ti].
Proof.
  intros Hc Hr Hn Ht Hp0 Hp1 self x.
  split; [apply half_of_odd |]. split; [apply half_of_odd |].
  exact (ResidualCNN_stages c r n_feats pr x b t p g Hc Hr Hn Ht Hp0 Hp1 eq_refl).
Qed.

(** C5.  A recurrent block holds a single-layer bidirectional GRU.  For
    every input of shape (d0, d1, rnn_dim) whose time axis (the second
    axis of a batch-first block, the first of a time-first one) is not
    empty, it returns a tensor of shape (d0, d1, 2 * hidden_size): the time
    axis is kept and the feature axis is twice the hidden size.  The result
    is dropout applied to the output of the GRU, which was fed the GELU of
    the input normalized along its trailing axis. *)
Theorem C5_recurrent_block_shape
        (rnn_dim hidden_size d0 d1 : Z) (pr : Q) (batch_first : bool)
        (d : list Z -> scalar) (p : path) (g : Generator) :
  (0 <= pr)%Q -> (pr <= 1)%Q ->
  1 <= (if batch_first then d1 else d0) ->
  let self := BidirectionalGRU.__init__ rnn_dim hidden_size pr batch_first in
  let x := {| shape := [d0; d1; rnn_dim]; data := d |} in
  let time_axis (s : list Z) := nth (if batch_first then 1 else 0)%nat s 0 in
  nn.GRU.num_layers (BidirectionalGRU.BiGRU self) = 1
  /\ nn.GRU.bidirectional (BidirectionalGRU.BiGRU self) = true
  /\ exists y u g',
       BidirectionalGRU.forward self x p g = inr (y, g')
       /\ time_axis (shape y) = time_axis (shape x)
       /\ nth 2 (shape y) 0 = 2 * nn.GRU.hidden_size (BidirectionalGRU.BiGRU self)
       /\ shape y = [d0; d1; 2 * hidden_size]
       /\ F.dropout u pr true (p ++ [Attr "dropout"]) g = inr (y, g')
       /\ shape u = [d0; d1; 2 * hidden_size]
       /\ forall i0 i1 j,
            data u [i0; i1; j]
            = gru_output (BidirectionalGRU.BiGRU self)
                (fun idx =>
                   s_gelu (nth (trailing idx)
                               (k_layer_norm (p ++ [Attr "layer_norm"]) (fibre x rnn_dim idx))
                               s_zero))
                d0 d1 (p ++ [Attr "BiGRU"]) i0 i1 j.
Proof.
  intros Hp0 Hp1 Hs self x time_axis.
  split; [reflexivity |]. split; [reflexivity |].
  destruct (BidirectionalGRU_ok rnn_dim hidden_size pr batch_first x d0 d1 p g
              Hp0 Hp1 eq_refl Hs) as (y & u & g' & E & Sy & Ed & Su & Du).
  exists y, u, g'. rewrite Sy. unfold time_axis.
  repeat split; try assumption.
  now destruct batch_first.
Qed.

(** C6.  For every input of shape (b, c, n_feats, t) the normalization
    wrapper built for [n_feats] returns a tensor of the same shape, and
    leaves the generator alone.  The element at (bi, ci, fi, ti) of the
    result is component [fi] of the layer normalization of the feature
    vector of the input at (bi, ci, ., ti): the statistics run over the
    feature axis, separately at each batch, channel and time position. *)
Theorem C6_normalization_over_features
        (n_feats b c t : Z) (d : list Z -> scalar) (p : path) (g : Generator) :
  let x := {| shape := [b; c; n_feats; t]; data := d |} in
  exists y,
    CNNLayerNorm.forward (CNNLayerNorm.__init__ n_feats) x p g = inr (y, g)
    /\ shape y = shape x
    /\ forall bi ci fi ti,
         data y [bi; ci; fi; ti]
         = nth (Z.to_nat fi)
               (k_layer_norm (p ++ [Attr "layer_norm"])
                  (map (fun j => data x [bi; ci; j; ti]) (range n_feats)))
               s_zero.
Proof.
  intros x.
  exact (CNNLayerNorm_ok (CNNLayerNorm.__init__ n_feats) x b c n_feats t p g
           eq_refl eq_refl).
Qed.

(** C7.  Whatever the configuration, a forward call of the model that
    returns was given a four-dimensional input and returns a tensor with
    the same leading (batch) axis; and each unit that returns (the
    normalization wrapper, the residual block, the recurrent block) keeps
    the leading axis of its input. *)
Theorem C7_batch_size_preserved :
  (forall (self : SpeechRecognitionModel.t) (x : Tensor),
      post (SpeechRecognitionModel.forward self x)
           (fun y => batch_size y = batch_size x /\ length (shape x) = 4%nat))
  /\ (forall (self : CNNLayerNorm.t) (x : Tensor),
         post (CNNLayerNorm.forward self x) (fun y => batch_size y = batch_size x))
  /\ (forall (self : ResidualCNN.t) (x : Tensor),
         post (ResidualCNN.forward self x) (fun y => batch_size y = batch_size x))
  /\ (forall (self : BidirectionalGRU.t) (x : Tensor),
         post (BidirectionalGRU.forward self x) (fun y => batch_size y = batch_size x)).
Proof.
  split; [| split; [| split]]; intros self x.
  - eapply post_weaken; [apply forward_post |]. intros y (B & L & _). now split.
  - eapply post_weaken; [apply CNNLayerNorm_post |]. intros y (S & _).
    unfold batch_size. now rewrite S.
  - eapply post_weaken; [apply ResidualCNN_post |]. now intros y (B & _).
  - eapply post_weaken; [apply BidirectionalGRU_post |]. now intros y (_ & B).
Qed.

(** C8.  Two forward calls on the same input, with the same parameters,
    started from two states of the random generator: (1) in evaluation
    mode they have the same outcome, whatever the two states are; (2) so
    they have for a model built with dropout probability 0, in the
    training mode it is built in; (3) in training mode with any
    probability they have the same outcome as soon as the two generators
    hand out the same draws, the only thing a forward call takes from the
    generator being the masks of its dropout modules. *)
Theorem C8_forward_deterministic_up_to_dropout
        (self : SpeechRecognitionModel.t) (x : Tensor) (p : path) (g1 g2 : Generator) :
  outcome (SpeechRecognitionModel.forward (SpeechRecognitionModel.eval self) x p g1)
  = outcome (SpeechRecognitionModel.forward (SpeechRecognitionModel.eval self) x p g2)
  /\ (forall n_cnn_layers n_rnn_layers rnn_dim n_class n_feats stride,
        let m := SpeechRecognitionModel.__init__ n_cnn_layers n_rnn_layers rnn_dim
                   n_class n_feats stride 0 in
        outcome (SpeechRecognitionModel.forward m x p g1)
        = outcome (SpeechRecognitionModel.forward m x p g2))
  /\ (same_draws g1 g2 ->
      outcome (SpeechRecognitionModel.forward self x p g1)
      = outcome (SpeechRecognitionModel.forward self x p g2)).
Proof.
  split; [| split].
  - apply agree_outcome with (R := any_draws); [| exact I].
    apply forward_agree, eval_tame.
  - intros. apply agree_outcome with (R := any_draws); [| exact I].
    apply forward_agree, zero_dropout_tame. reflexivity.
  - intros H. apply agree_outcome with (R := same_draws); [| exact H].
    apply forward_agree, all_tame_same_draws.
Qed.

End Claims.

Section FailureClaims.
Context {K : Backend}.

(** C9 (amended).  With the default stride 2 the first convolution maps
    a frequency axis of length [n] to [(n - 1) / 2 + 1], which is the
    halved value [n / 2] exactly when [n] is even.  For every odd
    [n_feats] and every input (B, 1, n_feats, T) with a non-empty time
    axis the forward call raises a shape mismatch: in the normalization
    layer of the first residual block when the model has one, and in the
    linear projection when it has no residual block. *)
Theorem C9_odd_feature_count_raises
        (n_cnn_layers n_rnn_layers rnn_dim n_class n_feats B T : Z) (pr : Q)
        (d : list Z -> scalar) (p : path) (g : Generator) :
  Z.odd n_feats = true -> 1 <= n_feats -> 0 <= B -> 1 <= T ->
  let self := SpeechRecognitionModel.__init__ n_cnn_layers n_rnn_layers rnn_dim
                n_class n_feats SpeechRecognitionModel.default_stride pr in
  let x := {| shape := [B; 1; n_feats; T]; data := d |} in
  let F' := (n_feats - 1) / 2 + 1 in
  let T' := (T - 1) / 2 + 1 in
  (forall n, nn.Conv2d.out_size (SpeechRecognitionModel.cnn self) n = (n - 1) / 2 + 1)
  /\ (forall n, (n - 1) / 2 + 1 = n / 2 <-> Z.even n = true)
  /\ (1 <= n_cnn_layers ->
      SpeechRecognitionModel.forward self x p g
      = inl {| site := p ++ [Attr "rescnn_layers"; Item 0;
                             Attr "layer_norm1"; Attr "layer_norm"];
               what := NormShape (n_feats / 2) [B; 32; T'; F'] |})
  /\ (n_cnn_layers <= 0 ->
      SpeechRecognitionModel.forward self x p g
      = inl {| site := p ++ [Attr "fully_connected"];
               what := LinearShape (n_feats / 2 * 32) [B; T'; 32 * F'] |}).
Proof.
  intros Hodd Hn HB HT self x F' T'.
  assert (Hne : F' <> n_feats / 2).
  { unfold F'. intros E. apply halving_even in E.
    rewrite <- Z.negb_odd, Hodd in E. discriminate. }
  destruct (Conv2d_ok (SpeechRecognitionModel.cnn self) x B 1 n_feats T _
              (p ++ [Attr "cnn"]) g eq_refl
              (first_conv_shape 2 n_feats T ltac:(lia) Hn HT)) as (x1 & E1 & S1 & _).
  fold F' T' in S1.
  split; [intros n; apply out_size_first |]. split; [exact halving_even |]. split.
  - intros Hc. unfold SpeechRecognitionModel.forward. step E1.
    cbn [SpeechRecognitionModel.rescnn_layers SpeechRecognitionModel.__init__ self].
    rewrite (range_pos n_cnn_layers Hc). cbn [map].
    rewrite (bind_inl (call (Attr "rescnn_layers") _) _ p g _
               (Sequential_first_raises ResidualCNN.forward _ _ x1
                  (p ++ [Attr "rescnn_layers"]) g _
                  (ResidualCNN_mismatch
                     (ResidualCNN.__init__ 32 32 3 1 pr (n_feats / 2))
                     x1 B 32 F' T' _ g S1 Hne))).
    now rewrite <- !app_assoc.
  - intros Hc. unfold SpeechRecognitionModel.forward. step E1.
    cbn [SpeechRecognitionModel.rescnn_layers SpeechRecognitionModel.__init__ self].
    rewrite (range_nonpos n_cnn_layers Hc). cbn [map].
    assert (E2 : call (Attr "rescnn_layers")
                      (nn.Sequential.forward ResidualCNN.forward [] x1) p g
                 = inr (x1, g)) by reflexivity.
    step E2.
    assert (G0 : getitem (shape x1) 0 p g = inr (B, g)) by now rewrite S1.
    assert (G1 : getitem (shape x1) 1 p g = inr (32, g)) by now rewrite S1.
    assert (G2 : getitem (shape x1) 2 p g = inr (F', g)) by now rewrite S1.
    assert (G3 : getitem (shape x1) 3 p g = inr (T', g)) by now rewrite S1.
    assert (HF' : 0 <= (n_feats - 1) / 2) by (apply Z.div_pos; lia).
    assert (HT' : 0 <= (T - 1) / 2) by (apply Z.div_pos; lia).
    destruct (view_ok [B; 32 * F'; T'] x1 p g) as (x3 & E3 & S3).
    { cbn [forallb]. rewrite !andb_true_r, !andb_true_iff, !Z.leb_le. unfold F', T'. lia. }
    { rewrite S1. cbn [prod fold_right]. ring. }
    destruct (transpose_1_2_ok x3 _ _ _ p g S3) as (x4 & E4 & S4).
    step G0. step G1. step G2. step G3. step E3. step E4.
    rewrite (bind_inl (call (Attr "fully_connected") _) _ p g _
               (Linear_mismatch (SpeechRecognitionModel.fully_connected self) x4
                  [B; T'] (32 * F') (p ++ [Attr "fully_connected"]) g
                  ltac:(now rewrite S4)
                  ltac:(cbn [nn.Linear.in_features SpeechRecognitionModel.fully_connected
                               SpeechRecognitionModel.__init__ self]; lia))).
    now rewrite S4.
Qed.

(** C10.  A model built with [n_rnn_layers = 0] has no recurrent block:
    that stage hands its input on unchanged.  The linear projection
    produces [rnn_dim] features and the first layer of the classifier
    expects [2 * rnn_dim], so when [rnn_dim] is not 0 every forward call
    raises, and on a valid input it raises the shape mismatch of that
    layer.  A forward call that returns therefore comes from a model with
    [n_rnn_layers >= 1] or [rnn_dim = 0]. *)
Theorem C10_no_recurrent_block_raises
        (n_cnn_layers rnn_dim n_class n_feats stride : Z) (pr : Q) :
  let init n_rnn_layers :=
    SpeechRecognitionModel.__init__ n_cnn_layers n_rnn_layers rnn_dim
      n_class n_feats stride pr in
  let self := init 0 in
  SpeechRecognitionModel.birnn_layers self = []
  /\ (forall x : Tensor,
         nn.Sequential.forward BidirectionalGRU.forward
           (SpeechRecognitionModel.birnn_layers self) x = ret x)
  /\ nn.Linear.out_features (SpeechRecognitionModel.fully_connected self) = rnn_dim
  /\ hd_error (SpeechRecognitionModel.classifier self)
     = Some (nn.OfLinear (nn.Linear.new (rnn_dim * 2) rnn_dim))
  /\ (rnn_dim <> 0 -> forall x : Tensor, fails (SpeechRecognitionModel.forward self x))
  /\ (rnn_dim <> 0 ->
      forall (d : list Z -> scalar) B F T p g,
        1 <= stride -> 0 <= B -> 1 <= F -> 1 <= T ->
        (F - 1) / stride + 1 = n_feats / 2 ->
        (0 <= pr)%Q -> (pr <= 1)%Q ->
        SpeechRecognitionModel.forward self {| shape := [B; 1; F; T]; data := d |} p g
        = inl {| site := p ++ [Attr "classifier"; Item 0];
                 what := LinearShape (rnn_dim * 2) [B; (T - 1) / stride + 1; rnn_dim] |})
  /\ (forall n_rnn_layers (x y : Tensor) p g g',
        SpeechRecognitionModel.forward (init n_rnn_layers) x p g = inr (y, g') ->
        1 <= n_rnn_layers \/ rnn_dim = 0).
Proof.
  intros init self.
  assert (Hfails : forall n_rnn_layers, n_rnn_layers <= 0 -> rnn_dim <> 0 ->
            forall x : Tensor, fails (SpeechRecognitionModel.forward (init n_rnn_layers) x)).
  { intros n Hn Hd x. unfold SpeechRecognitionModel.forward.
    cbn [SpeechRecognitionModel.birnn_layers SpeechRecognitionModel.__init__ init].
    rewrite (range_nonpos n Hn). cbn [map].
    do 2 (eapply fails_bind with (Q := fun _ => True); [easy | intros ? _]).
    cbv zeta.
    do 6 (eapply fails_bind with (Q := fun _ => True); [easy | intros ? _]).
    eapply fails_bind; [apply post_call, Linear_post |]. intros x5 (lead & _ & S5).
    eapply fails_bind with (Q := fun y => y = x5);
      [apply post_call, post_ret; reflexivity | intros ? ->].
    apply fails_bind_l. intros q h. eexists.
    apply (classifier_mismatch n_cnn_layers n rnn_dim n_class n_feats stride pr
             x5 lead (q ++ [Attr "classifier"]) h Hd S5). }
  split; [reflexivity |]. split; [reflexivity |]. split; [reflexivity |].
  split; [reflexivity |]. split; [| split].
  - intros Hd. apply Hfails; [lia | exact Hd].
  - intros Hd d B F T p g Hs HB HF HT Hhalf Hp0 Hp1.
    destruct (forward_front n_cnn_layers 0 rnn_dim n_class n_feats stride pr
                {| shape := [B; 1; F; T]; data := d |} B F T p g
                Hs HB HF HT Hhalf Hp0 Hp1 eq_refl) as (x1 & g1 & S1 & E).
    subst self init. cbv beta. rewrite E.
    assert (E2 : call (Attr "birnn_layers")
                      (nn.Sequential.forward BidirectionalGRU.forward [] x1) p g1
                 = inr (x1, g1)) by reflexivity.
    step E2.
    rewrite (bind_inl (call (Attr "classifier") _) _ p g1 _
               (classifier_mismatch n_cnn_layers 0 rnn_dim n_class n_feats stride pr
                  x1 [B; (T - 1) / stride + 1] (p ++ [Attr "classifier"]) g1 Hd S1)).
    now rewrite S1, <- app_assoc.
  - intros n x y p g g' E.
    destruct (Z_le_gt_dec 1 n) as [Hn | Hn]; [now left | right].
    destruct (Z.eq_dec rnn_dim 0) as [Hd | Hd]; [exact Hd | exfalso].
    destruct (Hfails n ltac:(lia) Hd x p g) as [e Ee]. congruence.
Qed.

End FailureClaims.

(** ** Even kernels *)

Section EvenKernel.
Context {K : Backend}.

Lemma sample_shape_even_kernel (cin cout r h w : Z) :
  1 <= cout -> 1 <= r -> 1 <= h -> 1 <= w ->
  nn.Conv2d.sample_shape (nn.Conv2d.new cin cout (2 * r) 1 ((2 * r) / 2)) cin h w
  = inr [cout; h + 1; w + 1].
Proof.
  intros Hc Hr Hh Hw. unfold nn.Conv2d.sample_shape. rewrite !out_size_even_kernel.
  cbv [nn.Conv2d.padding nn.Conv2d.kernel_size nn.Conv2d.stride
       nn.Conv2d.in_channels nn.Conv2d.out_channels].
  replace (2 * r / 2) with r by (replace (2 * r) with (r * 2) by lia; now rewrite Z.div_mul).
  rewrite Z.eqb_refl. simpl negb.
  destruct (Z.leb_spec 1 0); [lia |].
  destruct (Z.ltb_spec r 0); [lia |].
  destruct (Z.leb_spec (2 * r) 0); [lia |].
  destruct (Z.ltb_spec cout 1); [lia |].
  destruct (Z.ltb_spec (h + 2 * r) (2 * r)); [lia |].
  destruct (Z.ltb_spec (w + 2 * r) (2 * r)); [lia |].
  reflexivity.
Qed.

(** With an even kernel the padding [kernel / 2] makes the first
    convolution return one more row and column than it is given, and the
    second normalization of the block raises. *)
Lemma ResidualCNN_even_kernel_raises (c r nf : Z) (pr : Q) (x : Tensor) b t p g :
  1 <= c -> 1 <= r -> 1 <= nf -> 1 <= t -> (0 <= pr)%Q -> (pr <= 1)%Q ->
  shape x = [b; c; nf; t] ->
  ResidualCNN.forward (ResidualCNN.__init__ c c (2 * r) 1 pr nf) x p g
  = inl {| site := p ++ [Attr "layer_norm2"; Attr "layer_norm"];
           what := NormShape nf [b; c; t + 1; nf + 1] |}.
Proof.
  intros Hc Hr Hnf Ht Hp0 Hp1 Hx.
  set (self := ResidualCNN.__init__ c c (2 * r) 1 pr nf).
  destruct (CNNLayerNorm_ok (ResidualCNN.layer_norm1 self) x b c nf t
              (p ++ [Attr "layer_norm1"]) g Hx eq_refl) as (x1 & E1 & S1 & _).
  destruct (dropout_ok (F.gelu x1) pr true (p ++ [Attr "dropout1"]) g Hp0 Hp1)
    as (x2 & g2 & E2 & S2).
  simpl in S2. rewrite S1, Hx in S2.
  destruct (Conv2d_ok (ResidualCNN.cnn1 self) x2 b c nf t _ (p ++ [Attr "cnn1"]) g2 S2
              (sample_shape_even_kernel c c r nf t Hc Hr Hnf Ht)) as (x3 & E3 & S3 & _).
  unfold ResidualCNN.forward. step E1. step E2. step E3.
  rewrite (bind_inl (call (Attr "layer_norm2") _) _ p g2 _
             (CNNLayerNorm_mismatch (ResidualCNN.layer_norm2 self) x3 b c (nf + 1) (t + 1)
                (p ++ [Attr "layer_norm2"]) g2 S3 ltac:(simpl; lia))).
  now rewrite <- app_assoc.
Qed.

(** Without an output channel the first convolution of the block refuses
    its weight: a block built with [c = 0] channels raises there, on every
    input of its configured shape. *)
Lemma ResidualCNN_no_channel_raises (k s nf : Z) (pr : Q) (x : Tensor) b t p g :
  1 <= k -> 1 <= s -> (0 <= pr)%Q -> (pr <= 1)%Q ->
  shape x = [b; 0; nf; t] ->
  ResidualCNN.forward (ResidualCNN.__init__ 0 0 k s pr nf) x p g
  = inl {| site := p ++ [Attr "cnn1"]; what := ConvWeight 0 |}.
Proof.
  intros Hk Hs Hp0 Hp1 Hx.
  set (self := ResidualCNN.__init__ 0 0 k s pr nf).
  destruct (CNNLayerNorm_ok (ResidualCNN.layer_norm1 self) x b 0 nf t
              (p ++ [Attr "layer_norm1"]) g Hx eq_refl) as (x1 & E1 & S1 & _).
  destruct (dropout_ok (F.gelu x1) pr true (p ++ [Attr "dropout1"]) g Hp0 Hp1)
    as (x2 & g2 & E2 & S2).
  simpl in S2. rewrite S1, Hx in S2.
  assert (E3 : nn.Conv2d.forward (ResidualCNN.cnn1 self) x2 (p ++ [Attr "cnn1"]) g2
               = inl {| site := p ++ [Attr "cnn1"]; what := ConvWeight 0 |}).
  { unfold nn.Conv2d.forward, bind, whoami. rewrite S2.
    unfold nn.Conv2d.sample_shape.
    cbv [self ResidualCNN.cnn1 ResidualCNN.__init__ nn.Conv2d.padding
         nn.Conv2d.kernel_size nn.Conv2d.stride nn.Conv2d.in_channels
         nn.Conv2d.out_channels].
    destruct (Z.leb_spec s 0); [lia |].
    destruct (Z.ltb_spec (k / 2) 0) as [Hk2 |];
      [assert (0 <= k / 2) by (apply Z.div_pos; lia); lia |].
    destruct (Z.leb_spec k 0); [lia |].
    reflexivity. }
  unfold ResidualCNN.forward. step E1. step E2.
  exact (bind_inl (call (Attr "cnn1") _) _ p g2 _ E3).
Qed.

End EvenKernel.

(** * Concrete runs *)

(** C2: in the model of the end-to-end scenario the normalization layer of
    a recurrent block does not have the halved feature count as its
    width. *)
Lemma C2_recurrent_norm_width_counterexample :
  exists b,
    In b (SpeechRecognitionModel.birnn_layers
            (SpeechRecognitionModel.__init__ 3 2 256 29 128
               SpeechRecognitionModel.default_stride
               SpeechRecognitionModel.default_dropout))
    /\ nn.LayerNorm.normalized_shape (BidirectionalGRU.layer_norm b) <> 128 / 2.
Proof.
  eexists. split; [left; reflexivity |]. discriminate.
Qed.


(** C4: a block with stride 1, padding [kernel / 2] and kernel 2 does not
    return the shape of a valid input: it raises. *)
Lemma C4_even_kernel_counterexample :
  nn.Conv2d.stride (ResidualCNN.cnn1 (ResidualCNN.__init__ 32 32 2 1 (1 # 10) 4)) = 1
  /\ nn.Conv2d.padding (ResidualCNN.cnn1 (ResidualCNN.__init__ 32 32 2 1 (1 # 10) 4)) = 2 / 2
  /\ ResidualCNN.forward (ResidualCNN.__init__ 32 32 2 1 (1 # 10) 4)
       (toy_tensor [1; 32; 4; 5]) [] (fun _ => true)
     = inl {| site := [Attr "layer_norm2"; Attr "layer_norm"];
              what := NormShape 4 [1; 32; 6; 5] |}.
Proof.
  split; [reflexivity |]. split; [reflexivity |].
  apply (ResidualCNN_even_kernel_raises (K := ToyBackend) 32 1 4 (1 # 10)
           (toy_tensor [1; 32; 4; 5]) 1 5 [] (fun _ => true));
    try lia; try reflexivity; unfold Qle; simpl; lia.
Qed.

(** A block with stride 1, kernel 3 and more output than input channels
    returns, but not the shape of its input: the residual is broadcast
    along the channel axis. *)
Lemma ResidualCNN_widening_example :
  exists y g',
    ResidualCNN.forward (ResidualCNN.__init__ 1 2 3 1 0 4)
      (toy_tensor [1; 1; 4; 5]) [] (fun _ => true) = inr (y, g')
    /\ shape y = [1; 2; 4; 5].
Proof.
  eexists. eexists. split; [vm_compute; reflexivity | reflexivity].
Qed.

(** C9: with an odd feature count and no residual block the forward call
    raises in the linear projection, not in a normalization layer. *)
Lemma C9_no_residual_block_counterexample :
  Z.odd 3 = true
  /\ SpeechRecognitionModel.forward
       (SpeechRecognitionModel.__init__ 0 2 256 29 3
          SpeechRecognitionModel.default_stride SpeechRecognitionModel.default_dropout)
       (toy_tensor [1; 1; 3; 4]) [] (fun _ => true)
     = inl {| site := [Attr "fully_connected"];
              what := LinearShape 32 [1; 2; 64] |}.
Proof.
  split; [reflexivity |]. vm_compute. reflexivity.
Qed.

(** C4 at a concrete block: 32 channels, kernel 3, four features, on an
    input of shape (1, 32, 4, 5). *)
Lemma C4_residual_block_witness :
  exists y g',
    ResidualCNN.forward (ResidualCNN.__init__ 32 32 3 1 (1 # 10) 4)
      (toy_tensor [1; 32; 4; 5]) [] (fun _ => true) = inr (y, g')
    /\ shape y = [1; 32; 4; 5].
Proof.
  destruct (C4_residual_block_keeps_shape (K := ToyBackend) 32 1 4 1 5 (1 # 10)
              (fun idx => 1 + ravel [1; 32; 4; 5] idx) [] (fun _ => true))
    as (_ & _ & n1 & d1 & c1 & n2 & d2 & c2 & y & g1 & g2
        & _ & _ & _ & _ & _ & _ & E & S & _).
  - lia.
  - lia.
  - lia.
  - lia.
  - unfold Qle; simpl; lia.
  - unfold Qle; simpl; lia.
  - exists y, g2. split; [exact E |].
    exact (Forall_inv (Forall_inv_tail (Forall_inv_tail (Forall_inv_tail
             (Forall_inv_tail (Forall_inv_tail (Forall_inv_tail S))))))).
Defined.

(** C5 at a concrete block: the second recurrent block of a model with
    [rnn_dim = 4], time-first, on an input of shape (2, 3, 8). *)
Lemma C5_recurrent_block_witness :
  exists y g',
    BidirectionalGRU.forward (BidirectionalGRU.__init__ 8 4 (1 # 10) false)
      (toy_tensor [2; 3; 8]) [] (fun _ => true) = inr (y, g')
    /\ shape y = [2; 3; 8].
Proof.
  destruct (C5_recurrent_block_shape (K := ToyBackend) 8 4 2 3 (1 # 10) false
              (fun idx => 1 + ravel [2; 3; 8] idx) [] (fun _ => true))
    as (_ & _ & y & u & g' & E & _ & _ & S & _).
  - unfold Qle; simpl; lia.
  - unfold Qle; simpl; lia.
  - lia.
  - exists y, g'. split; [exact E | exact S].
Defined.

(** C7 at a concrete run: a model with one residual and two recurrent
    blocks returns on an input of shape (2, 1, 4, 6), with batch size 2. *)
Lemma C7_batch_size_witness :
  exists y g',
    SpeechRecognitionModel.forward (SpeechRecognitionModel.__init__ 1 2 2 3 4 2 (1 # 10))
      (toy_tensor [2; 1; 4; 6]) [] (fun _ => true) = inr (y, g')
    /\ batch_size y = Some 2.
Proof.
  destruct (forward_ok (K := ToyBackend) 1 2 2 3 4 2 (1 # 10)
              (toy_tensor [2; 1; 4; 6]) 2 4 6 [] (fun _ => true))
    as (y & g' & E & _);
    [lia | lia | lia | lia | reflexivity | lia
     | unfold Qle; simpl; lia | unfold Qle; simpl; lia | reflexivity |].
  exists y, g'. split; [exact E |].
  exact (proj1 (proj1 (C7_batch_size_preserved (K := ToyBackend)) _ _ _ _ _ _ E)).
Defined.

(** C8 at a concrete run in training mode: two generators that are not
    the same function but hand out the same draws. *)
Lemma C8_same_draws_witness :
  outcome (SpeechRecognitionModel.forward
             (SpeechRecognitionModel.__init__ 1 2 2 3 4 2 (1 # 10))
             (toy_tensor [1; 1; 4; 6]) [] (fun _ => true))
  = outcome (SpeechRecognitionModel.forward
               (SpeechRecognitionModel.__init__ 1 2 2 3 4 2 (1 # 10))
               (toy_tensor [1; 1; 4; 6]) [] (fun i => Nat.eqb i i)).
Proof.
  apply (C8_forward_deterministic_up_to_dropout (K := ToyBackend)).
  intros i. symmetry. apply Nat.eqb_refl.
Defined.

(** In training mode with dropout probability 1/10 two forward calls on
    the same input, with the same parameters, can return different
    elements: here the generators keep every element, and every other
    element. *)
Lemma training_mode_runs_may_differ :
  let m := SpeechRecognitionModel.__init__ 1 2 2 3 4 2 (1 # 10) in
  let x := toy_tensor [1; 1; 4; 6] in
  element_at (SpeechRecognitionModel.forward m x [] (fun _ => true)) [0; 1; 2]
  = Some 819200
  /\ element_at (SpeechRecognitionModel.forward m x [] Nat.even) [0; 1; 2]
     = Some 86016
  /\ element_at (SpeechRecognitionModel.forward (SpeechRecognitionModel.eval m) x []
                   Nat.even) [0; 1; 2]
     = Some 40960.
Proof.
  cbv zeta. split; [| split]; vm_compute; reflexivity.
Qed.

(** C9 at a concrete model: three features, one residual block. *)
Lemma C9_odd_feature_count_witness :
  SpeechRecognitionModel.forward
    (SpeechRecognitionModel.__init__ 1 2 256 29 3
       SpeechRecognitionModel.default_stride SpeechRecognitionModel.default_dropout)
    (toy_tensor [1; 1; 3; 4]) [] (fun _ => true)
  = inl {| site := [Attr "rescnn_layers"; Item 0; Attr "layer_norm1"; Attr "layer_norm"];
           what := NormShape 1 [1; 32; 2; 2] |}.
Proof.
  apply (C9_odd_feature_count_raises (K := ToyBackend) 1 2 256 29 3 1 4
           SpeechRecognitionModel.default_dropout
           (fun idx => 1 + ravel [1; 1; 3; 4] idx) [] (fun _ => true));
    try reflexivity; lia.
Defined.

(** C10 at a concrete model: the end-to-end scenario without recurrent
    blocks. *)
Lemma C10_no_recurrent_block_witness :
  exists e,
    SpeechRecognitionModel.forward
      (SpeechRecognitionModel.__init__ 3 0 256 29 128
         SpeechRecognitionModel.default_stride SpeechRecognitionModel.default_dropout)
      (toy_tensor [2; 1; 128; 300]) [] (fun _ => true) = inl e.
Proof.
  apply (C10_no_recurrent_block_raises (K := ToyBackend) 3 256 29 128 2 (1 # 10)).
  discriminate.
Defined.

(** With [rnn_dim = 0] a model without recurrent blocks returns: the
    classifier is then given the zero features it expects. *)
Lemma zero_width_model_returns :
  exists y g',
    SpeechRecognitionModel.forward
      (SpeechRecognitionModel.__init__ 1 0 0 3 4
         SpeechRecognitionModel.default_stride 0)
      (toy_tensor [1; 1; 4; 6]) [] (fun _ => true) = inr (y, g')
    /\ shape y = [1; 3; 3].
Proof.
  eexists. eexists. split; [vm_compute; reflexivity | reflexivity].
Qed.

(** * Further properties of the forward functions *)

(** ** Strides, kernels and channel counts of the convolutional part *)

Section Convolutions.
Context {K : Backend}.

(** An odd kernel with padding [kernel / 2] and any positive stride. *)
Lemma out_size_strided (cin cout r s n : Z) :
  nn.Conv2d.out_size (nn.Conv2d.new cin cout (2 * r + 1) s ((2 * r + 1) / 2)) n
  = (n - 1) / s + 1.
Proof.
  cbv [nn.Conv2d.out_size nn.Conv2d.padding nn.Conv2d.kernel_size nn.Conv2d.stride].
  rewrite half_of_odd. f_equal. f_equal. lia.
Qed.

Lemma sample_shape_strided (cin cout r s h w : Z) :
  1 <= cout -> 0 <= r -> 1 <= s -> 1 <= h -> 1 <= w ->
  nn.Conv2d.sample_shape (nn.Conv2d.new cin cout (2 * r + 1) s ((2 * r + 1) / 2)) cin h w
  = inr [cout; (h - 1) / s + 1; (w - 1) / s + 1].
Proof.
  intros Hc Hr Hs Hh Hw. unfold nn.Conv2d.sample_shape. rewrite !out_size_strided.
  cbv [nn.Conv2d.padding nn.Conv2d.kernel_size nn.Conv2d.stride
       nn.Conv2d.in_channels nn.Conv2d.out_channels].
  rewrite half_of_odd, Z.eqb_refl. simpl negb.
  destruct (Z.leb_spec s 0); [lia |].
  destruct (Z.ltb_spec r 0); [lia |].
  destruct (Z.leb_spec (2 * r + 1) 0); [lia |].
  destruct (Z.ltb_spec cout 1); [lia |].
  destruct (Z.ltb_spec (h + 2 * r) (2 * r + 1)); [lia |].
  destruct (Z.ltb_spec (w + 2 * r) (2 * r + 1)); [lia |].
  reflexivity.
Qed.

(** A strided convolution shortens an axis of length at least 2. *)
Lemma strided_shorter (s n : Z) : 2 <= s -> 2 <= n -> (n - 1) / s + 1 <> n.
Proof.
  intros Hs Hn. assert (H : (n - 1) / s < n - 1) by (apply Z.div_lt; lia). lia.
Qed.

(** With a stride of 2 or more the first convolution of a residual block
    shortens the feature axis, and the second normalization raises. *)
Lemma ResidualCNN_strided_raises (c r s nf : Z) (pr : Q) (x : Tensor) b t p g :
  1 <= c -> 0 <= r -> 2 <= s -> 2 <= nf -> 1 <= t -> (0 <= pr)%Q -> (pr <= 1)%Q ->
  shape x = [b; c; nf; t] ->
  ResidualCNN.forward (ResidualCNN.__init__ c c (2 * r + 1) s pr nf) x p g
  = inl {| site := p ++ [Attr "layer_norm2"; Attr "layer_norm"];
           what := NormShape nf [b; c; (t - 1) / s + 1; (nf - 1) / s + 1] |}.
Proof.
  intros Hc Hr Hs Hnf Ht Hp0 Hp1 Hx.
  set (self := ResidualCNN.__init__ c c (2 * r + 1) s pr nf).
  destruct (CNNLayerNorm_ok (ResidualCNN.layer_norm1 self) x b c nf t
              (p ++ [Attr "layer_norm1"]) g Hx eq_refl) as (x1 & E1 & S1 & _).
  destruct (dropout_ok (F.gelu x1) pr true (p ++ [Attr "dropout1"]) g Hp0 Hp1)
    as (x2 & g2 & E2 & S2).
  simpl in S2. rewrite S1, Hx in S2.
  destruct (Conv2d_ok (ResidualCNN.cnn1 self) x2 b c nf t _ (p ++ [Attr "cnn1"]) g2 S2
              (sample_shape_strided c c r s nf t Hc Hr ltac:(lia) ltac:(lia) Ht))
    as (x3 & E3 & S3 & _).
  unfold ResidualCNN.forward. step E1. step E2. step E3.
  rewrite (bind_inl (call (Attr "layer_norm2") _) _ p g2 _
             (CNNLayerNorm_mismatch (ResidualCNN.layer_norm2 self) x3 b c
                ((nf - 1) / s + 1) ((t - 1) / s + 1)
                (p ++ [Attr "layer_norm2"]) g2 S3 (strided_shorter s nf Hs Hnf))).
  now rewrite <- app_assoc.
Qed.

Lemma broadcastable_channel (b cout cin nf t : Z) :
  broadcastable [b; cout; nf; t] [b; cin; nf; t] = (cout =? cin) || (cin =? 1).
Proof.
  unfold broadcastable. cbn. rewrite !Z.eqb_refl. cbn.
  now rewrite !andb_true_r.
Qed.

(** Stride 1, an odd kernel, and possibly more or fewer output than input
    channels: everything up to the addition of the residual goes through
    and yields [(b, cout, nf, t)]. *)
Lemma ResidualCNN_body (cin cout r nf : Z) (pr : Q) (x : Tensor) b t p g :
  1 <= cout -> 0 <= r -> 1 <= nf -> 1 <= t -> (0 <= pr)%Q -> (pr <= 1)%Q ->
  shape x = [b; cin; nf; t] ->
  exists z g',
    shape z = [b; cout; nf; t]
    /\ ResidualCNN.forward (ResidualCNN.__init__ cin cout (2 * r + 1) 1 pr nf) x p g
       = (y <- iadd z x ;; ret y) p g'.
Proof.
  intros Hc Hr Hnf Ht Hp0 Hp1 Hx.
  set (self := ResidualCNN.__init__ cin cout (2 * r + 1) 1 pr nf).
  destruct (CNNLayerNorm_ok (ResidualCNN.layer_norm1 self) x b cin nf t
              (p ++ [Attr "layer_norm1"]) g Hx eq_refl) as (x1 & E1 & S1 & _).
  destruct (dropout_ok (F.gelu x1) pr true (p ++ [Attr "dropout1"]) g Hp0 Hp1)
    as (x2 & g2 & E2 & S2).
  simpl in S2. rewrite S1, Hx in S2.
  destruct (Conv2d_ok (ResidualCNN.cnn1 self) x2 b cin nf t _ (p ++ [Attr "cnn1"]) g2 S2
              (sample_shape_same cin cout r nf t Hc Hr Hnf Ht)) as (x3 & E3 & S3 & _).
  destruct (CNNLayerNorm_ok (ResidualCNN.layer_norm2 self) x3 b cout nf t
              (p ++ [Attr "layer_norm2"]) g2 S3 eq_refl) as (x4 & E4 & S4 & _).
  destruct (dropout_ok (F.gelu x4) pr true (p ++ [Attr "dropout2"]) g2 Hp0 Hp1)
    as (x5 & g5 & E5 & S5).
  simpl in S5. rewrite S4, S3 in S5.
  destruct (Conv2d_ok (ResidualCNN.cnn2 self) x5 b cout nf t _ (p ++ [Attr "cnn2"]) g5 S5
              (sample_shape_same cout cout r nf t Hc Hr Hnf Ht)) as (x6 & E6 & S6 & _).
  exists x6, g5. split; [exact S6 |].
  unfold ResidualCNN.forward.
  step E1. step E2. step E3. step E4. step E5. step E6. reflexivity.
Qed.

End Convolutions.

Section ConvolutionProperties.
Context {K : Backend}.

(** X1.  A residual block built with stride 1 and an odd kernel but with
    different input and output channel counts does not keep the shape of
    its input: with one input channel the residual is broadcast and the
    result has the output channel count; with any other input channel
    count the addition of the residual raises. *)
Theorem X1_residual_block_channel_mismatch
        (cin cout r nf b t : Z) (pr : Q) (d : list Z -> scalar) (p : path) (g : Generator) :
  1 <= cin -> 1 <= cout ->
  0 <= r -> 1 <= nf -> 1 <= t -> (0 <= pr)%Q -> (pr <= 1)%Q ->
  cin <> cout ->
  let self := ResidualCNN.__init__ cin cout (2 * r + 1) 1 pr nf in
  let x := {| shape := [b; cin; nf; t]; data := d |} in
  (cin = 1 ->
   exists y g', ResidualCNN.forward self x p g = inr (y, g')
                /\ shape y = [b; cout; nf; t])
  /\ (cin <> 1 ->
      ResidualCNN.forward self x p g
      = inl {| site := p;
               what := BroadcastShape [b; cout; nf; t] [b; cin; nf; t] |}).
Proof.
  intros _ Hco Hr Hnf Ht Hp0 Hp1 Hc self x.
  destruct (ResidualCNN_body cin cout r nf pr x b t p g Hco Hr Hnf Ht Hp0 Hp1 eq_refl)
    as (z & g' & Sz & E).
  fold self in E. rewrite E. unfold bind, iadd. rewrite Sz.
  cbn [shape x]. rewrite broadcastable_channel.
  destruct (Z.eqb_spec cout cin) as [Heq | _]; [congruence |].
  split; intros H1.
  - subst cin. cbn. eexists. eexists. split; reflexivity.
  - destruct (Z.eqb_spec cin 1); [contradiction | reflexivity].
Qed.

(** X2.  A residual block built with a stride of 2 or more (odd kernel,
    equal channel counts) raises on every input of its configured shape
    whose feature axis has at least two rows: the first convolution
    shortens the feature axis, so the second normalization layer meets a
    width it was not configured for, before the residual is added. *)
Theorem X2_residual_block_stride_raises
        (c r s nf b t : Z) (pr : Q) (d : list Z -> scalar) (p : path) (g : Generator) :
  1 <= c ->
  0 <= r -> 2 <= s -> 2 <= nf -> 1 <= t -> (0 <= pr)%Q -> (pr <= 1)%Q ->
  ResidualCNN.forward (ResidualCNN.__init__ c c (2 * r + 1) s pr nf)
    {| shape := [b; c; nf; t]; data := d |} p g
  = inl {| site := p ++ [Attr "layer_norm2"; Attr "layer_norm"];
           what := NormShape nf [b; c; (t - 1) / s + 1; (nf - 1) / s + 1] |}.
Proof.
  intros Hc Hr Hs Hnf Ht Hp0 Hp1.
  now apply ResidualCNN_strided_raises.
Qed.

(** X3.  A residual block built with stride 1 and an even kernel raises on
    every input of its configured shape: the padding [kernel / 2] makes
    the first convolution return one more row and one more column than it
    is given, and the second normalization layer raises. *)
Theorem X3_residual_block_even_kernel_raises
        (c r nf b t : Z) (pr : Q) (d : list Z -> scalar) (p : path) (g : Generator) :
  1 <= c ->
  1 <= r -> 1 <= nf -> 1 <= t -> (0 <= pr)%Q -> (pr <= 1)%Q ->
  ResidualCNN.forward (ResidualCNN.__init__ c c (2 * r) 1 pr nf)
    {| shape := [b; c; nf; t]; data := d |} p g
  = inl {| site := p ++ [Attr "layer_norm2"; Attr "layer_norm"];
           what := NormShape nf [b; c; t + 1; nf + 1] |}.
Proof.
  intros Hc Hr Hnf Ht Hp0 Hp1.
  now apply ResidualCNN_even_kernel_raises.
Qed.

(** X4.  The normalization wrapper raises on an input with fewer than four
    axes (there is no axis 3 to exchange with axis 2), and on a
    four-dimensional input whose feature axis does not have the
    configured width. *)
Theorem X4_normalization_wrapper_raises (self : CNNLayerNorm.t) (x : Tensor)
        (p : path) (g : Generator) :
  ((length (shape x) < 4)%nat ->
   exists dim, CNNLayerNorm.forward self x p g
               = inl {| site := p; what := DimOutOfRange (length (shape x)) dim |})
  /\ (forall b c f t,
        shape x = [b; c; f; t] ->
        f <> nn.LayerNorm.normalized_shape (CNNLayerNorm.layer_norm self) ->
        CNNLayerNorm.forward self x p g
        = inl {| site := p ++ [Attr "layer_norm"];
                 what := NormShape
                           (nn.LayerNorm.normalized_shape (CNNLayerNorm.layer_norm self))
                           [b; c; t; f] |}).
Proof.
  split.
  - intros H. unfold CNNLayerNorm.forward, bind, transpose, ndim.
    destruct (Nat.ltb_spec 2 (length (shape x))).
    + destruct (Nat.ltb_spec 3 (length (shape x))); [lia |]. now exists 3%nat.
    + now exists 2%nat.
  - intros b c f t Hx Hf. now apply CNNLayerNorm_mismatch.
Qed.

End ConvolutionProperties.

(** ** Valid and invalid inputs of the model *)

Section ModelInputs.
Context {K : Backend}.

(** When the first convolution does not return the feature width that
    the model was configured for, the first layer that checks it
    raises. *)
Lemma forward_feature_mismatch
      (n_cnn_layers n_rnn_layers rnn_dim n_class n_feats stride B F T : Z) (pr : Q)
      (x : Tensor) (p : path) (g : Generator) :
  1 <= stride -> 0 <= B -> 1 <= F -> 1 <= T ->
  (F - 1) / stride + 1 <> n_feats / 2 ->
  shape x = [B; 1; F; T] ->
  let self := SpeechRecognitionModel.__init__ n_cnn_layers n_rnn_layers rnn_dim
                n_class n_feats stride pr in
  let F' := (F - 1) / stride + 1 in
  let T' := (T - 1) / stride + 1 in
  (1 <= n_cnn_layers ->
   SpeechRecognitionModel.forward self x p g
   = inl {| site := p ++ [Attr "rescnn_layers"; Item 0;
                          Attr "layer_norm1"; Attr "layer_norm"];
            what := NormShape (n_feats / 2) [B; 32; T'; F'] |})
  /\ (n_cnn_layers <= 0 ->
      SpeechRecognitionModel.forward self x p g
      = inl {| site := p ++ [Attr "fully_connected"];
               what := LinearShape (n_feats / 2 * 32) [B; T'; 32 * F'] |}).
Proof.
  intros Hs HB HF HT Hne Hx self F' T'.
  destruct (Conv2d_ok (SpeechRecognitionModel.cnn self) x B 1 F T _
              (p ++ [Attr "cnn"]) g Hx
              (first_conv_shape stride F T Hs HF HT)) as (x1 & E1 & S1 & _).
  fold F' T' in S1. split.
  - intros Hc. unfold SpeechRecognitionModel.forward. step E1.
    cbn [SpeechRecognitionModel.rescnn_layers SpeechRecognitionModel.__init__ self].
    rewrite (range_pos n_cnn_layers Hc). cbn [map].
    rewrite (bind_inl (call (Attr "rescnn_layers") _) _ p g _
               (Sequential_first_raises ResidualCNN.forward _ _ x1
                  (p ++ [Attr "rescnn_layers"]) g _
                  (ResidualCNN_mismatch
                     (ResidualCNN.__init__ 32 32 3 1 pr (n_feats / 2))
                     x1 B 32 F' T' _ g S1 Hne))).
    now rewrite <- !app_assoc.
  - intros Hc. unfold SpeechRecognitionModel.forward. step E1.
    cbn [SpeechRecognitionModel.rescnn_layers SpeechRecognitionModel.__init__ self].
    rewrite (range_nonpos n_cnn_layers Hc). cbn [map].
    assert (E2 : call (Attr "rescnn_layers")
                      (nn.Sequential.forward ResidualCNN.forward [] x1) p g
                 = inr (x1, g)) by reflexivity.
    step E2.
    assert (G0 : getitem (shape x1) 0 p g = inr (B, g)) by now rewrite S1.
    assert (G1 : getitem (shape x1) 1 p g = inr (32, g)) by now rewrite S1.
    assert (G2 : getitem (shape x1) 2 p g = inr (F', g)) by now rewrite S1.
    assert (G3 : getitem (shape x1) 3 p g = inr (T', g)) by now rewrite S1.
    assert (HF' : 0 <= (F - 1) / stride) by (apply Z.div_pos; lia).
    assert (HT' : 0 <= (T - 1) / stride) by (apply Z.div_pos; lia).
    destruct (view_ok [B; 32 * F'; T'] x1 p g) as (x3 & E3 & S3).
    { cbn [forallb]. rewrite !andb_true_r, !andb_true_iff, !Z.leb_le. unfold F', T'. lia. }
    { rewrite S1. cbn [prod fold_right]. ring. }
    destruct (transpose_1_2_ok x3 _ _ _ p g S3) as (x4 & E4 & S4).
    step G0. step G1. step G2. step G3. step E3. step E4.
    rewrite (bind_inl (call (Attr "fully_connected") _) _ p g _
               (Linear_mismatch (SpeechRecognitionModel.fully_connected self) x4
                  [B; T'] (32 * F') (p ++ [Attr "fully_connected"]) g
                  ltac:(now rewrite S4)
                  ltac:(cbn [nn.Linear.in_features SpeechRecognitionModel.fully_connected
                               SpeechRecognitionModel.__init__ self]; lia))).
    now rewrite S4.
Qed.

(** What the first convolution refuses. *)
Lemma forward_cnn_raises (self : SpeechRecognitionModel.t) (x : Tensor) B C F T w p g :
  shape x = [B; C; F; T] ->
  nn.Conv2d.sample_shape (SpeechRecognitionModel.cnn self) C F T = inl w ->
  SpeechRecognitionModel.forward self x p g
  = inl {| site := p ++ [Attr "cnn"]; what := w |}.
Proof.
  intros Hx Hw. unfold SpeechRecognitionModel.forward.
  apply bind_inl. unfold call, nn.Conv2d.forward, bind, whoami.
  now rewrite Hx, Hw.
Qed.

(** X5.  For every configuration with a positive stride, at least one
    recurrent block, a positive recurrent width and number of classes
    and a dropout probability in [0, 1], and every input
    of shape (B, 1, F, T) with B, F, T >= 1 whose feature axis the first
    convolution maps to the halved declared feature count, the forward
    call returns a tensor of shape (B, (T - 1) / stride + 1, n_class),
    whatever the numbers of residual blocks and classes and the recurrent
    width are. *)
Theorem X5_forward_shape
        (n_cnn_layers n_rnn_layers rnn_dim n_class n_feats stride B F T : Z) (pr : Q)
        (d : list Z -> scalar) (p : path) (g : Generator) :
  1 <= rnn_dim -> 1 <= n_class ->
  1 <= stride -> 1 <= B -> 1 <= F -> 1 <= T ->
  (F - 1) / stride + 1 = n_feats / 2 ->
  1 <= n_rnn_layers ->
  (0 <= pr)%Q -> (pr <= 1)%Q ->
  exists y g',
    SpeechRecognitionModel.forward
      (SpeechRecognitionModel.__init__ n_cnn_layers n_rnn_layers rnn_dim
         n_class n_feats stride pr)
      {| shape := [B; 1; F; T]; data := d |} p g = inr (y, g')
    /\ shape y = [B; (T - 1) / stride + 1; n_class].
Proof.
  intros _ _ Hs HB HF HT Hhalf Hn Hp0 Hp1.
  now apply forward_ok with (F := F).
Qed.

(** X6.  Whatever the stride, when the first convolution maps the feature
    axis of the input to a length other than the halved declared feature
    count, the forward call raises a shape mismatch: in the first
    normalization layer of the first residual block, or in the linear
    projection when the model has no residual block.  In particular a
    model built with stride 1 raises on every input that has the declared
    feature count. *)
Theorem X6_feature_width_mismatch_raises
        (n_cnn_layers n_rnn_layers rnn_dim n_class n_feats stride B F T : Z) (pr : Q)
        (d : list Z -> scalar) (p : path) (g : Generator) :
  1 <= stride -> 0 <= B -> 1 <= F -> 1 <= T ->
  (F - 1) / stride + 1 <> n_feats / 2 \/ (stride = 1 /\ F = n_feats) ->
  let self := SpeechRecognitionModel.__init__ n_cnn_layers n_rnn_layers rnn_dim
                n_class n_feats stride pr in
  let x := {| shape := [B; 1; F; T]; data := d |} in
  let F' := (F - 1) / stride + 1 in
  let T' := (T - 1) / stride + 1 in
  (1 <= n_cnn_layers ->
   SpeechRecognitionModel.forward self x p g
   = inl {| site := p ++ [Attr "rescnn_layers"; Item 0;
                          Attr "layer_norm1"; Attr "layer_norm"];
            what := NormShape (n_feats / 2) [B; 32; T'; F'] |})
  /\ (n_cnn_layers <= 0 ->
      SpeechRecognitionModel.forward self x p g
      = inl {| site := p ++ [Attr "fully_connected"];
               what := LinearShape (n_feats / 2 * 32) [B; T'; 32 * F'] |}).
Proof.
  intros Hs HB HF HT H self x F' T'.
  apply forward_feature_mismatch; try assumption; try reflexivity.
  destruct H as [H | [-> ->]]; [exact H |].
  rewrite Z.div_1_r.
  assert (n_feats / 2 < n_feats) by (apply Z.div_lt; lia). lia.
Qed.

(** X7.  The first convolution checks the input before anything else
    runs: an input with a channel count other than 1 is refused, so is an
    input with an empty time axis, and a model built with a stride of 0
    or less refuses every four-dimensional input. *)
Theorem X7_first_convolution_refuses
        (n_cnn_layers n_rnn_layers rnn_dim n_class n_feats stride B C F T : Z) (pr : Q)
        (d : list Z -> scalar) (p : path) (g : Generator) :
  let self := SpeechRecognitionModel.__init__ n_cnn_layers n_rnn_layers rnn_dim
                n_class n_feats stride pr in
  let x := {| shape := [B; C; F; T]; data := d |} in
  (1 <= stride -> C <> 1 ->
   SpeechRecognitionModel.forward self x p g
   = inl {| site := p ++ [Attr "cnn"]; what := ConvChannels 1 C |})
  /\ (1 <= stride -> C = 1 -> 1 <= F -> T = 0 ->
      SpeechRecognitionModel.forward self x p g
      = inl {| site := p ++ [Attr "cnn"]; what := ConvKernelTooLarge 2 3 |})
  /\ (stride <= 0 ->
      SpeechRecognitionModel.forward self x p g
      = inl {| site := p ++ [Attr "cnn"]; what := ConvParams |}).
Proof.
  intros self x. split; [| split].
  - intros Hs HC. apply forward_cnn_raises with (B := B) (C := C) (F := F) (T := T);
      [reflexivity |].
    unfold nn.Conv2d.sample_shape. cbn.
    destruct (Z.leb_spec stride 0); [lia |]. cbn.
    destruct (Z.eqb_spec C 1); [contradiction | reflexivity].
  - intros Hs -> HF ->.
    apply forward_cnn_raises with (B := B) (C := 1) (F := F) (T := 0); [reflexivity |].
    unfold nn.Conv2d.sample_shape. cbn.
    destruct (Z.leb_spec stride 0); [lia |]. cbn.
    destruct (Z.ltb_spec (F + 2) 3); [lia | reflexivity].
  - intros Hs. apply forward_cnn_raises with (B := B) (C := C) (F := F) (T := T);
      [reflexivity |].
    unfold nn.Conv2d.sample_shape. cbn.
    destruct (Z.leb_spec stride 0); [reflexivity | lia].
Qed.

End ModelInputs.

(** ** Evaluation mode and the generator; the two axis orders *)

Section ModesAndOrders.
Context {K : Backend}.

(** X8.  A forward call in evaluation mode that returns leaves the random
    generator exactly as it found it, and so does a forward call of a
    model built with dropout probability 0: nothing is drawn. *)
Theorem X8_generator_untouched
        (self : SpeechRecognitionModel.t) (x y : Tensor) (p : path) (g g' : Generator) :
  (SpeechRecognitionModel.forward (SpeechRecognitionModel.eval self) x p g = inr (y, g') ->
   g' = g)
  /\ (forall n_cnn_layers n_rnn_layers rnn_dim n_class n_feats stride,
        SpeechRecognitionModel.forward
          (SpeechRecognitionModel.__init__ n_cnn_layers n_rnn_layers rnn_dim
             n_class n_feats stride 0) x p g = inr (y, g') ->
        g' = g).
Proof.
  set (R := fun g1 g2 : Generator => g1 = g /\ g2 = g).
  split.
  - intros E.
    assert (H := forward_agree R (SpeechRecognitionModel.eval self) x
                   (eval_tame R self) p g g (conj eq_refl eq_refl)).
    rewrite E in H. exact (proj1 (proj2 H)).
  - intros n_cnn_layers n_rnn_layers rnn_dim n_class n_feats stride E.
    assert (H := forward_agree R _ x
                   (zero_dropout_tame R n_cnn_layers n_rnn_layers rnn_dim n_class
                      n_feats stride 0 (Qeq_refl 0)) p g g (conj eq_refl eq_refl)).
    rewrite E in H. exact (proj1 (proj2 H)).
Qed.

Lemma dropout_eval (x : Tensor) (pr : Q) p g :
  (0 <= pr)%Q -> (pr <= 1)%Q -> F.dropout x pr false p g = inr (x, g).
Proof.
  intros H0 H1. unfold F.dropout.
  rewrite (Qle_bool_true _ _ H0), (Qle_bool_true _ _ H1). cbn.
  now rewrite orb_true_r.
Qed.

(** A block in evaluation mode returns the output of its recurrent layer
    as it is. *)
Lemma BidirectionalGRU_eval_ok (rnn_dim hidden : Z) (pr : Q) (bf : bool)
      (x : Tensor) d0 d1 p g :
  (0 <= pr)%Q -> (pr <= 1)%Q ->
  shape x = [d0; d1; rnn_dim] ->
  1 <= (if bf then d1 else d0) ->
  let self := BidirectionalGRU.train false
                (BidirectionalGRU.__init__ rnn_dim hidden pr bf) in
  exists y,
    BidirectionalGRU.forward self x p g = inr (y, g)
    /\ shape y = [d0; d1; 2 * hidden]
    /\ forall i0 i1 j,
         data y [i0; i1; j]
         = gru_output (BidirectionalGRU.BiGRU self)
             (fun idx =>
                s_gelu (nth (trailing idx)
                            (k_layer_norm (p ++ [Attr "layer_norm"]) (fibre x rnn_dim idx))
                            s_zero))
             d0 d1 (p ++ [Attr "BiGRU"]) i0 i1 j.
Proof.
  intros Hp0 Hp1 Hx Hs self.
  destruct (LayerNorm_ok (BidirectionalGRU.layer_norm self) x [d0; d1]
              (p ++ [Attr "layer_norm"]) g) as (x1 & E1 & S1 & D1).
  { now rewrite Hx. }
  destruct (GRU_ok (BidirectionalGRU.BiGRU self) (F.gelu x1) d0 d1 (p ++ [Attr "BiGRU"]) g)
    as (x2 & h & E2 & S2 & D2).
  { simpl. now rewrite S1. }
  { exact Hs. }
  assert (E3 : call (Attr "dropout")
                    (nn.Dropout.forward (BidirectionalGRU.dropout self) x2) p g
               = inr (x2, g)) by (apply dropout_eval; assumption).
  exists x2. split; [| split].
  - unfold BidirectionalGRU.forward. step E1. step E2. step E3. reflexivity.
  - exact S2.
  - intros i0 i1 j. rewrite D2. unfold gru_output.
    do 2 f_equal. f_equal. apply map_ext. intros s'. apply map_ext. intros f.
    simpl. now rewrite D1.
Qed.

(** X9.  A time-first recurrent block reads its leading axis as time: in
    evaluation mode, on an input of shape (a, b, rnn_dim), it returns
    element for element what the batch-first block with the same
    parameters returns on the input with its two leading axes exchanged,
    with the two leading axes exchanged back. *)
Theorem X9_time_first_is_transposed_batch_first
        (rnn_dim hidden_size a b : Z) (pr : Q) (d : list Z -> scalar)
        (p : path) (g : Generator) :
  1 <= rnn_dim -> 1 <= hidden_size ->
  (0 <= pr)%Q -> (pr <= 1)%Q -> 1 <= a -> 1 <= b ->
  let time_first :=
    BidirectionalGRU.train false (BidirectionalGRU.__init__ rnn_dim hidden_size pr false) in
  let batch_first :=
    BidirectionalGRU.train false (BidirectionalGRU.__init__ rnn_dim hidden_size pr true) in
  let x := {| shape := [a; b; rnn_dim]; data := d |} in
  exists xT y yT,
    transpose 0 1 x p g = inr (xT, g)
    /\ BidirectionalGRU.forward time_first x p g = inr (y, g)
    /\ BidirectionalGRU.forward batch_first xT p g = inr (yT, g)
    /\ shape y = [a; b; 2 * hidden_size]
    /\ shape yT = [b; a; 2 * hidden_size]
    /\ forall i0 i1 j, data y [i0; i1; j] = data yT [i1; i0; j].
Proof.
  intros _ _ Hp0 Hp1 Ha Hb time_first batch_first x.
  set (xT := {| shape := [b; a; rnn_dim]; data := fun idx => d (swap 0 1 0 idx) |}).
  destruct (BidirectionalGRU_eval_ok rnn_dim hidden_size pr false x a b p g
              Hp0 Hp1 eq_refl Ha) as (y & E & S & D).
  destruct (BidirectionalGRU_eval_ok rnn_dim hidden_size pr true xT b a p g
              Hp0 Hp1 eq_refl Ha) as (yT & ET & ST & DT).
  exists xT, y, yT.
  split; [reflexivity |]. split; [exact E |]. split; [exact ET |].
  split; [exact S |]. split; [exact ST |].
  intros i0 i1 j. rewrite D, DT. reflexivity.
Qed.

End ModesAndOrders.

(** ** What a forward call that returns was given *)

Section Returns.
Context {K : Backend}.

(** What a convolution with kernel 3 and padding 1 accepts. *)
Lemma conv3_inv (cin cout stride c h w : Z) (s : list Z) :
  nn.Conv2d.sample_shape (nn.Conv2d.new cin cout 3 stride (3 / 2)) c h w = inr s ->
  1 <= stride /\ c = cin /\ 1 <= h /\ 1 <= w
  /\ s = [cout; (h - 1) / stride + 1; (w - 1) / stride + 1].
Proof.
  unfold nn.Conv2d.sample_shape. rewrite !out_size_first.
  cbv [nn.Conv2d.padding nn.Conv2d.kernel_size nn.Conv2d.stride
       nn.Conv2d.in_channels nn.Conv2d.out_channels].
  change (3 / 2) with 1.
  destruct (Z.leb_spec stride 0); [discriminate |]. cbn [orb Z.ltb Z.leb Z.compare].
  destruct (Z.ltb_spec cout 1); [discriminate |].
  destruct (Z.eqb_spec c cin); [| discriminate]. cbn [negb].
  destruct (Z.ltb_spec (h + 2 * 1) 3); [discriminate |].
  destruct (Z.ltb_spec (w + 2 * 1) 3); [discriminate |].
  intros E. inversion E. repeat split; lia.
Qed.

(** A convolution that returns was given four axes or three. *)
Lemma Conv2d_post_shape (self : nn.Conv2d.t) (x : Tensor) :
  post (nn.Conv2d.forward self x)
       (fun y => exists s,
          (exists n c h w, shape x = [n; c; h; w]
                           /\ nn.Conv2d.sample_shape self c h w = inr s
                           /\ shape y = n :: s)
          \/ (exists c h w, shape x = [c; h; w]
                            /\ nn.Conv2d.sample_shape self c h w = inr s
                            /\ shape y = s)).
Proof.
  unfold nn.Conv2d.forward.
  apply post_bind with (Q := fun _ => True); [easy |]. intros me _.
  destruct (shape x) as [| n [| c [| h [| w [| ? ?]]]]] eqn:Hx; try apply post_raise.
  - destruct (nn.Conv2d.sample_shape self n c h) as [e | s] eqn:Hs; [apply post_raise |].
    apply post_ret. exists s. right. now exists n, c, h.
  - destruct (nn.Conv2d.sample_shape self c h w) as [e | s] eqn:Hs; [apply post_raise |].
    apply post_ret. exists s. left. now exists n, c, h, w.
Qed.

(** On four axes the normalization wrapper returns only when the feature
    axis has the configured width. *)
Lemma CNNLayerNorm_post4 (self : CNNLayerNorm.t) (x : Tensor) b c f t :
  shape x = [b; c; f; t] ->
  post (CNNLayerNorm.forward self x)
       (fun y => shape y = shape x
                 /\ f = nn.LayerNorm.normalized_shape (CNNLayerNorm.layer_norm self)).
Proof.
  intros Hx p g y g' E.
  destruct (Z.eq_dec f (nn.LayerNorm.normalized_shape (CNNLayerNorm.layer_norm self)))
    as [Hf | Hf].
  - destruct (CNNLayerNorm_ok self x b c f t p g Hx Hf) as (y0 & E0 & S0 & _).
    rewrite E0 in E. inversion E; subst. now split.
  - rewrite (CNNLayerNorm_mismatch self x b c f t p g Hx Hf) in E. discriminate.
Qed.

Lemma dropout_post_range (x : Tensor) (pr : Q) (tr : bool) :
  post (F.dropout x pr tr)
       (fun y => shape y = shape x /\ (0 <= pr)%Q /\ (pr <= 1)%Q).
Proof.
  intros p g y g' E. split; [exact (dropout_post x pr tr p g y g' E) |].
  unfold F.dropout in E.
  destruct (Qle_bool 0 pr) eqn:H0; [| discriminate].
  destruct (Qle_bool pr 1) eqn:H1; [| discriminate].
  split; now apply Qle_bool_iff.
Qed.

(** A residual block of the model that returns was given
    [(b, 32, n_feats, t)] and returns that shape. *)
Lemma model_block_post (pr : Q) (nf : Z) (x : Tensor) :
  post (ResidualCNN.forward (ResidualCNN.__init__ 32 32 3 1 pr nf) x)
       (fun y => shape y = shape x
                 /\ exists b t, shape x = [b; 32; nf; t] /\ 1 <= nf /\ 1 <= t).
Proof.
  intros p g y g' E.
  destruct (ResidualCNN_post _ x p g y g' E) as (_ & _ & Lx).
  destruct (shape x) as [| b [| c [| f [| t [| ? ?]]]]] eqn:Hx; try discriminate.
  unfold ResidualCNN.forward in E. cbv zeta in E.
  apply bind_inv in E. destruct E as (x1 & g1 & E1 & E).
  destruct (CNNLayerNorm_post4 _ x b c f t Hx _ _ _ _ E1) as (S1 & Hf).
  cbn in Hf. subst f.
  apply bind_inv in E. destruct E as (x2 & g2 & E2 & E).
  apply dropout_post in E2. cbn in E2. rewrite S1, Hx in E2.
  apply bind_inv in E. destruct E as (x3 & g3 & E3 & E).
  destruct (Conv2d_post_shape _ _ _ _ _ _ E3) as (s3 & [(n & c' & h & w & Sx & Hs & S3)
                                                       | (c' & h & w & Sx & _)]);
    rewrite E2 in Sx; [| discriminate].
  inversion Sx; subst n c' h w. clear Sx.
  apply conv3_inv in Hs. destruct Hs as (_ & -> & Hnf & Ht & ->).
  rewrite !Z.div_1_r in S3. replace (nf - 1 + 1) with nf in S3 by lia.
  replace (t - 1 + 1) with t in S3 by lia.
  apply bind_inv in E. destruct E as (x4 & g4 & E4 & E).
  destruct (CNNLayerNorm_post4 _ x3 b 32 nf t S3 _ _ _ _ E4) as (S4 & _).
  apply bind_inv in E. destruct E as (x5 & g5 & E5 & E).
  apply dropout_post in E5. cbn in E5. rewrite S4, S3 in E5.
  apply bind_inv in E. destruct E as (x6 & g6 & E6 & E).
  destruct (Conv2d_post_shape _ _ _ _ _ _ E6) as (s6 & [(n & c' & h & w & Sx & Hs & S6)
                                                       | (c' & h & w & Sx & _)]);
    rewrite E5 in Sx; [| discriminate].
  inversion Sx; subst n c' h w. clear Sx.
  apply conv3_inv in Hs. destruct Hs as (_ & _ & _ & _ & ->).
  rewrite !Z.div_1_r in S6. replace (nf - 1 + 1) with nf in S6 by lia.
  replace (t - 1 + 1) with t in S6 by lia.
  apply bind_inv in E. destruct E as (x7 & g7 & E7 & E).
  apply iadd_post in E7. inversion E; subst.
  split; [congruence |]. now exists b, t.
Qed.

Lemma GRU_post_shape (self : nn.GRU.t) (x : Tensor) :
  post (nn.GRU.forward self x) (fun r => keeps_two_axes x (fst r)).
Proof.
  unfold nn.GRU.forward.
  apply post_bind with (Q := fun _ => True); [easy |]. intros me _.
  destruct (shape x) as [| d0 [| d1 [| d [| ? ?]]]] eqn:Hx; try apply post_raise.
  - destruct (negb _); [apply post_raise |].
    destruct (_ <=? _); [apply post_raise |]. apply post_ret.
    intros a b d' H. rewrite Hx in H. discriminate.
  - destruct (negb _); [apply post_raise |].
    destruct (_ <=? _); [apply post_raise |]. apply post_ret.
    intros a b d' H. rewrite Hx in H. inversion H; subst. cbn. eauto.
Qed.

Lemma keeps_two_axes_refl (x : Tensor) : keeps_two_axes x x.
Proof.
  intros a b d H. eauto.
Qed.

Lemma keeps_two_axes_trans (x y z : Tensor) :
  keeps_two_axes x y -> keeps_two_axes y z -> keeps_two_axes x z.
Proof.
  intros H1 H2 a b d H. destruct (H1 a b d H) as [d' H']. exact (H2 a b d' H').
Qed.

Lemma BidirectionalGRU_post_shape (self : BidirectionalGRU.t) (x : Tensor) :
  post (BidirectionalGRU.forward self x) (keeps_two_axes x).
Proof.
  unfold BidirectionalGRU.forward.
  eapply post_bind; [apply post_call, LayerNorm_post |]. intros x1 (S1 & _).
  cbv zeta.
  eapply post_bind; [apply post_call, GRU_post_shape |]. intros [x2 h] H2.
  eapply post_bind; [apply post_call, dropout_post |]. intros x3 S3.
  apply post_ret. intros a b d H.
  destruct (H2 a b d) as [d' H']; [cbn; now rewrite S1 |].
  exists d'. cbn in H'. now rewrite S3.
Qed.

(** The classifier head keeps the two leading axes, returns [n_class]
    features and needs a dropout probability in [0, 1]. *)
Lemma classifier_post
      (n_cnn_layers n_rnn_layers rnn_dim n_class n_feats stride : Z) (pr : Q)
      (x : Tensor) a b d :
  shape x = [a; b; d] ->
  post (nn.Sequential.forward nn.Layer.forward
          (SpeechRecognitionModel.classifier
             (SpeechRecognitionModel.__init__ n_cnn_layers n_rnn_layers rnn_dim
                n_class n_feats stride pr)) x)
       (fun y => shape y = [a; b; n_class] /\ (0 <= pr)%Q /\ (pr <= 1)%Q).
Proof.
  intros Hx. unfold nn.Sequential.forward. cbn [SpeechRecognitionModel.classifier
    SpeechRecognitionModel.__init__ nn.Sequential.forward_from nn.Layer.forward].
  eapply post_bind; [apply post_call, Linear_post |]. intros x1 (lead & H1 & S1).
  rewrite Hx in H1. cbn in H1. inversion H1; subst lead. cbn in S1.
  eapply post_bind; [apply post_call, post_ret with (Q := fun y => shape y = shape x1);
                     reflexivity |]. intros x2 S2.
  eapply post_bind; [apply post_call, dropout_post_range |]. intros x3 (S3 & Hp0 & Hp1).
  eapply post_bind; [apply post_call, Linear_post |]. intros x4 (lead & H4 & S4).
  rewrite S3, S2, S1 in H4. cbn in H4. inversion H4; subst lead. cbn in S4.
  apply post_ret. auto.
Qed.

End Returns.

Section ReturnsOnlyOnValidInput.
Context {K : Backend}.

(** X10.  A forward call of a model built by [__init__] returns only on a
    valid input, and then with the expected shape: the input has shape
    (B, 1, F, T) with B >= 0 and F, T >= 1, the stride is positive, the
    first convolution maps F to the halved declared feature count, the
    dropout probability lies in [0, 1], and the result has shape
    (B, (T - 1) / stride + 1, n_class). *)
Theorem X10_forward_returns_only_on_valid_input
        (n_cnn_layers n_rnn_layers rnn_dim n_class n_feats stride : Z) (pr : Q)
        (x y : Tensor) (p : path) (g g' : Generator) :
  SpeechRecognitionModel.forward
    (SpeechRecognitionModel.__init__ n_cnn_layers n_rnn_layers rnn_dim
       n_class n_feats stride pr) x p g = inr (y, g') ->
  exists B F T,
    shape x = [B; 1; F; T]
    /\ 0 <= B /\ 1 <= F /\ 1 <= T /\ 1 <= stride
    /\ (F - 1) / stride + 1 = n_feats / 2
    /\ (0 <= pr)%Q /\ (pr <= 1)%Q
    /\ shape y = [B; (T - 1) / stride + 1; n_class].
Proof.
  intros E.
  destruct (forward_post _ x p g y g' E) as (_ & Lx & _).
  destruct (shape x) as [| B [| C [| F [| T [| ? ?]]]]] eqn:Hx; try discriminate.
  unfold SpeechRecognitionModel.forward in E.
  apply bind_inv in E. destruct E as (x1 & g1 & E1 & E).
  destruct (Conv2d_post_shape _ _ _ _ _ _ E1) as (s1 & [(n & c & h & w & Sx & Hs & S1)
                                                       | (c & h & w & Sx & _)]);
    rewrite Hx in Sx; [| discriminate].
  inversion Sx; subst n c h w. clear Sx.
  apply conv3_inv in Hs. destruct Hs as (Hs & -> & HF & HT & ->).
  apply bind_inv in E. destruct E as (x2 & g2 & E2 & E).
  assert (S2 : shape x2 = shape x1).
  { revert E2. unfold call, nn.Sequential.forward.
    apply Sequential_post with (Rel := fun a b => shape b = shape a).
    - reflexivity.
    - intros a b c Hab Hbc. congruence.
    - intros l a Hl. cbn in Hl. apply in_map_iff in Hl. destruct Hl as (_ & <- & _).
      eapply post_weaken; [apply model_block_post |]. now intros b (Sb & _). }
  rewrite S1 in S2. cbv zeta in E.
  apply bind_inv in E. destruct E as (s0 & h0 & G0 & E).
  apply getitem_post in G0. rewrite S2 in G0. inversion G0; subst s0. clear G0.
  apply bind_inv in E. destruct E as (s1 & h1 & G1 & E).
  apply getitem_post in G1. rewrite S2 in G1. inversion G1; subst s1. clear G1.
  apply bind_inv in E. destruct E as (s2 & h2 & G2 & E).
  apply getitem_post in G2. rewrite S2 in G2. inversion G2; subst s2. clear G2.
  apply bind_inv in E. destruct E as (s3 & h3 & G3 & E).
  apply getitem_post in G3. rewrite S2 in G3. inversion G3; subst s3. clear G3.
  apply bind_inv in E. destruct E as (x3 & g3 & E3 & E).
  assert (HB : 0 <= B).
  { unfold view in E3.
    destruct (forallb (Z.leb 0) _) eqn:Hnn; [| discriminate].
    cbn [forallb] in Hnn. apply andb_true_iff in Hnn. destruct Hnn as [Hnn _].
    now apply Z.leb_le. }
  apply view_post in E3.
  apply bind_inv in E. destruct E as (x4 & g4 & E4 & E).
  apply transpose_post in E4. destruct E4 as (S4 & _ & _).
  rewrite E3 in S4. cbn -[Z.mul Z.div Z.add Z.sub] in S4.
  apply bind_inv in E. destruct E as (x5 & g5 & E5 & E).
  apply Linear_post in E5. destruct E5 as (lead & H5 & S5).
  rewrite S4 in H5. cbn -[Z.mul Z.div Z.add Z.sub] in H5.
  inversion H5 as [[Hlead Hin]]. subst lead. cbn -[Z.mul Z.div Z.add Z.sub] in S5.
  apply bind_inv in E. destruct E as (x6 & g6 & E6 & E).
  assert (S6 : keeps_two_axes x5 x6).
  { revert E6. unfold call, nn.Sequential.forward.
    apply Sequential_post with (Rel := keeps_two_axes).
    - apply keeps_two_axes_refl.
    - apply keeps_two_axes_trans.
    - intros l a _. apply BidirectionalGRU_post_shape. }
  destruct (S6 _ _ _ S5) as (d6 & Hx6).
  apply bind_inv in E. destruct E as (x7 & g7 & E7 & E).
  apply (classifier_post n_cnn_layers n_rnn_layers rnn_dim n_class n_feats stride pr
           x6 _ _ _ Hx6) in E7.
  destruct E7 as (S7 & Hp0 & Hp1).
  inversion E; subst.
  assert (Hhalf : (F - 1) / stride + 1 = n_feats / 2).
  { clear - Hin. change (32 * ((F - 1) / stride + 1) = n_feats / 2 * 32) in Hin.
    set (u := (F - 1) / stride) in *. set (v := n_feats / 2) in *. lia. }
  exists B, F, T. repeat split; assumption.
Qed.

End ReturnsOnlyOnValidInput.

(** ** Shapes and exceptions do not depend on values, mode or generator *)

Section Alike.
Context {A B : Type}.

Lemma alike_ret (RA : A -> A -> Prop) (a1 a2 : A) : RA a1 a2 -> alike RA (ret a1) (ret a2).
Proof.
  intros H p g1 g2. exact H.
Qed.

Lemma alike_raise (RA : A -> A -> Prop) (w : exn) : alike RA (raise w) (raise w).
Proof.
  intros p g1 g2. reflexivity.
Qed.

Lemma alike_call (RA : A -> A -> Prop) (s : seg) (c1 c2 : M A) :
  alike RA c1 c2 -> alike RA (call s c1) (call s c2).
Proof.
  intros H p g1 g2. apply H.
Qed.

Lemma alike_bind (RA : A -> A -> Prop) (RB : B -> B -> Prop)
      (c1 c2 : M A) (k1 k2 : A -> M B) :
  alike RA c1 c2 ->
  (forall a1 a2, RA a1 a2 -> alike RB (k1 a1) (k2 a2)) ->
  alike RB (bind c1 k1) (bind c2 k2).
Proof.
  intros H I p g1 g2. unfold bind. specialize (H p g1 g2).
  destruct (c1 p g1) as [e1 | [a1 h1]], (c2 p g2) as [e2 | [a2 h2]]; try easy.
  now apply I.
Qed.

End Alike.

Lemma alike_whoami : alike eq whoami whoami.
Proof.
  intros p g1 g2. reflexivity.
Qed.

Section AlikeOps.
Context {K : Backend}.

Lemma transpose_alike d0 d1 (x x' : Tensor) :
  same_shape x x' -> alike same_shape (transpose d0 d1 x) (transpose d0 d1 x').
Proof.
  unfold same_shape, transpose, ndim. intros <-.
  destruct (_ <? _)%nat; [| apply alike_raise].
  destruct (_ <? _)%nat; [| apply alike_raise].
  now apply alike_ret.
Qed.

Lemma view_alike s (x x' : Tensor) :
  same_shape x x' -> alike same_shape (view s x) (view s x').
Proof.
  unfold same_shape, view. intros <-.
  destruct (_ && _); [now apply alike_ret | apply alike_raise].
Qed.

Lemma iadd_alike (x x' o o' : Tensor) :
  same_shape x x' -> same_shape o o' -> alike same_shape (iadd x o) (iadd x' o').
Proof.
  unfold same_shape, iadd. intros <- <-.
  destruct (broadcastable _ _); [now apply alike_ret | apply alike_raise].
Qed.

Lemma getitem_alike sizes i : alike eq (getitem sizes i) (getitem sizes i).
Proof.
  unfold getitem. destruct (nth_error sizes i); [now apply alike_ret | apply alike_raise].
Qed.

Lemma gelu_same_shape (x x' : Tensor) : same_shape x x' -> same_shape (F.gelu x) (F.gelu x').
Proof.
  intros H. exact H.
Qed.

(** Dropout keeps the shape in every branch, in training as in
    evaluation mode. *)
Lemma dropout_alike (x x' : Tensor) (pr : Q) (tr tr' : bool) :
  same_shape x x' -> alike same_shape (F.dropout x pr tr) (F.dropout x' pr tr').
Proof.
  unfold same_shape. intros H p g1 g2.
  unfold F.dropout, numel, bind, draw, ret, raise. rewrite <- H.
  destruct (negb (Qle_bool 0 pr) || negb (Qle_bool pr 1)); [reflexivity |].
  destruct (Qeq_bool pr 0); cbn [orb]; [exact H |].
  destruct (Z.to_nat (prod (shape x)) =? 0)%nat;
    destruct tr, tr'; cbn [negb orb]; try exact H;
    destruct (Qeq_bool pr 1); cbn; first [exact H | reflexivity].
Qed.

Lemma LayerNorm_alike self (x x' : Tensor) :
  same_shape x x' ->
  alike same_shape (nn.LayerNorm.forward self x) (nn.LayerNorm.forward self x').
Proof.
  unfold same_shape, nn.LayerNorm.forward. intros <-.
  apply alike_bind with (RA := eq); [apply alike_whoami | intros me ? <-].
  destruct (split_last (shape x)) as [[lead d] |]; [| apply alike_raise].
  destruct (d =? _); [now apply alike_ret | apply alike_raise].
Qed.

Lemma Linear_alike self (x x' : Tensor) :
  same_shape x x' ->
  alike same_shape (nn.Linear.forward self x) (nn.Linear.forward self x').
Proof.
  unfold same_shape, nn.Linear.forward. intros <-.
  apply alike_bind with (RA := eq); [apply alike_whoami | intros me ? <-].
  destruct (split_last (shape x)) as [[lead d] |]; [| apply alike_raise].
  destruct (d =? _); [now apply alike_ret | apply alike_raise].
Qed.

Lemma Conv2d_alike self (x x' : Tensor) :
  same_shape x x' ->
  alike same_shape (nn.Conv2d.forward self x) (nn.Conv2d.forward self x').
Proof.
  unfold same_shape, nn.Conv2d.forward, ndim. intros <-.
  apply alike_bind with (RA := eq); [apply alike_whoami | intros me ? <-].
  destruct (shape x) as [| n [| c [| h [| w [| ? ?]]]]]; try apply alike_raise.
  - destruct (nn.Conv2d.sample_shape self n c h); [apply alike_raise | now apply alike_ret].
  - destruct (nn.Conv2d.sample_shape self c h w); [apply alike_raise | now apply alike_ret].
Qed.

Lemma GRU_alike self (x x' : Tensor) :
  same_shape x x' ->
  alike (fun r r' => same_shape (fst r) (fst r'))
        (nn.GRU.forward self x) (nn.GRU.forward self x').
Proof.
  unfold same_shape, nn.GRU.forward, ndim. intros <-.
  apply alike_bind with (RA := eq); [apply alike_whoami | intros me ? <-].
  cbv zeta.
  destruct (shape x) as [| d0 [| d1 [| d [| ? ?]]]]; try apply alike_raise.
  - destruct (negb _); [apply alike_raise |].
    destruct (_ <=? _); [apply alike_raise |]. now apply alike_ret.
  - destruct (negb _); [apply alike_raise |].
    destruct (_ <=? _); [apply alike_raise |]. now apply alike_ret.
Qed.

Lemma CNNLayerNorm_alike self (x x' : Tensor) :
  same_shape x x' ->
  alike same_shape (CNNLayerNorm.forward self x) (CNNLayerNorm.forward self x').
Proof.
  intros H. unfold CNNLayerNorm.forward, contiguous.
  apply alike_bind with (RA := same_shape); [now apply transpose_alike |]. intros a a' Ha.
  apply alike_bind with (RA := same_shape); [now apply alike_ret |]. intros b b' Hb.
  apply alike_bind with (RA := same_shape);
    [now apply alike_call, LayerNorm_alike |]. intros c c' Hc.
  apply alike_bind with (RA := same_shape); [now apply transpose_alike |]. intros e e' He.
  now apply alike_ret.
Qed.

Lemma ResidualCNN_alike mode self (x x' : Tensor) :
  same_shape x x' ->
  alike same_shape (ResidualCNN.forward self x)
        (ResidualCNN.forward (ResidualCNN.train mode self) x').
Proof.
  intros H. unfold ResidualCNN.forward. cbv zeta.
  apply alike_bind with (RA := same_shape);
    [now apply alike_call, CNNLayerNorm_alike |]. intros x1 x1' H1.
  apply alike_bind with (RA := same_shape);
    [apply alike_call, dropout_alike; now apply gelu_same_shape |]. intros x2 x2' H2.
  apply alike_bind with (RA := same_shape);
    [now apply alike_call, Conv2d_alike |]. intros x3 x3' H3.
  apply alike_bind with (RA := same_shape);
    [now apply alike_call, CNNLayerNorm_alike |]. intros x4 x4' H4.
  apply alike_bind with (RA := same_shape);
    [apply alike_call, dropout_alike; now apply gelu_same_shape |]. intros x5 x5' H5.
  apply alike_bind with (RA := same_shape);
    [now apply alike_call, Conv2d_alike |]. intros x6 x6' H6.
  apply alike_bind with (RA := same_shape); [now apply iadd_alike |]. intros x7 x7' H7.
  now apply alike_ret.
Qed.

Lemma BidirectionalGRU_alike mode self (x x' : Tensor) :
  same_shape x x' ->
  alike same_shape (BidirectionalGRU.forward self x)
        (BidirectionalGRU.forward (BidirectionalGRU.train mode self) x').
Proof.
  intros H. unfold BidirectionalGRU.forward. cbv zeta.
  apply alike_bind with (RA := same_shape);
    [now apply alike_call, LayerNorm_alike |]. intros x1 x1' H1.
  apply alike_bind with (RA := fun r r' => same_shape (fst r) (fst r'));
    [apply alike_call, GRU_alike; now apply gelu_same_shape |].
  intros [x2 h2] [x2' h2'] H2. cbn in H2.
  apply alike_bind with (RA := same_shape);
    [now apply alike_call, dropout_alike |]. intros x3 x3' H3.
  now apply alike_ret.
Qed.

Lemma Layer_alike mode self (x x' : Tensor) :
  same_shape x x' ->
  alike same_shape (nn.Layer.forward self x)
        (nn.Layer.forward (nn.Layer.train mode self) x').
Proof.
  intros H. destruct self as [l | | d]; cbn.
  - now apply Linear_alike.
  - now apply alike_ret, gelu_same_shape.
  - now apply dropout_alike.
Qed.

Lemma Sequential_alike {L} (fwd : L -> Tensor -> M Tensor) (f : L -> L) :
  (forall l x x', same_shape x x' -> alike same_shape (fwd l x) (fwd (f l) x')) ->
  forall children i x x',
    same_shape x x' ->
    alike same_shape (nn.Sequential.forward_from fwd i children x)
          (nn.Sequential.forward_from fwd i (map f children) x').
Proof.
  intros H. induction children as [| l rest IH]; intros i x x' Hx; cbn.
  - now apply alike_ret.
  - apply alike_bind with (RA := same_shape); [now apply alike_call, H |].
    intros a a' Ha. now apply IH.
Qed.

Lemma forward_alike mode self (x x' : Tensor) :
  same_shape x x' ->
  alike same_shape (SpeechRecognitionModel.forward self x)
        (SpeechRecognitionModel.forward (SpeechRecognitionModel.train mode self) x').
Proof.
  intros H. unfold SpeechRecognitionModel.forward, nn.Sequential.forward. cbv zeta.
  cbn [SpeechRecognitionModel.train SpeechRecognitionModel.cnn
       SpeechRecognitionModel.rescnn_layers SpeechRecognitionModel.fully_connected
       SpeechRecognitionModel.birnn_layers SpeechRecognitionModel.classifier].
  apply alike_bind with (RA := same_shape);
    [now apply alike_call, Conv2d_alike |]. intros x1 x1' H1.
  apply alike_bind with (RA := same_shape).
  { apply alike_call, Sequential_alike; [| exact H1].
    intros l a a'. apply ResidualCNN_alike. }
  intros x2 x2' H2. unfold same_shape in H2. rewrite <- H2.
  apply alike_bind with (RA := eq); [apply getitem_alike |]. intros s0 ? <-.
  apply alike_bind with (RA := eq); [apply getitem_alike |]. intros s1 ? <-.
  apply alike_bind with (RA := eq); [apply getitem_alike |]. intros s2 ? <-.
  apply alike_bind with (RA := eq); [apply getitem_alike |]. intros s3 ? <-.
  apply alike_bind with (RA := same_shape); [now apply view_alike |]. intros x3 x3' H3.
  apply alike_bind with (RA := same_shape); [now apply transpose_alike |]. intros x4 x4' H4.
  apply alike_bind with (RA := same_shape);
    [now apply alike_call, Linear_alike |]. intros x5 x5' H5.
  apply alike_bind with (RA := same_shape).
  { apply alike_call, Sequential_alike; [| exact H5].
    intros l a a'. apply BidirectionalGRU_alike. }
  intros x6 x6' H6.
  apply alike_bind with (RA := same_shape).
  { apply alike_call, Sequential_alike; [| exact H6].
    intros l a a'. apply Layer_alike. }
  intros x7 x7' H7.
  now apply alike_ret.
Qed.

(** X11.  Whether a forward call raises, which exception it raises and
    where, and the shape of what it returns depend on the configuration
    and on the shape of the input only: not on the elements of the input,
    not on the state of the random generator, and not on the model being
    in training or in evaluation mode. *)
Theorem X11_shapes_do_not_depend_on_values_or_mode
        (self : SpeechRecognitionModel.t) (mode : bool) (x x' : Tensor)
        (p : path) (g g' : Generator) :
  shape x = shape x' ->
  shape_outcome (SpeechRecognitionModel.forward self x p g)
  = shape_outcome (SpeechRecognitionModel.forward
                     (SpeechRecognitionModel.train mode self) x' p g').
Proof.
  intros H. assert (A := forward_alike mode self x x' H p g g').
  destruct (SpeechRecognitionModel.forward self x p g) as [e | [y h]],
           (SpeechRecognitionModel.forward _ x' p g') as [e' | [y' h']];
    cbn; try easy; now f_equal.
Qed.

End AlikeOps.

(** ** Evaluation mode is dropout with probability 0 *)

Section EvalIsNoDropout.
Context {K : Backend}.

(** A computation that agrees with itself from any two generators. *)
Lemma agree_alike {A} (c : M A) : agree any_draws c -> alike eq c c.
Proof.
  intros H p g1 g2. specialize (H p g1 g2 I).
  destruct (c p g1) as [e1 | [a1 h1]], (c p g2) as [e2 | [a2 h2]];
    [exact H | contradiction | contradiction | exact (proj1 H)].
Qed.

Lemma dropout_eval_zero (x : Tensor) (pr : Q) :
  (0 <= pr)%Q -> (pr <= 1)%Q ->
  alike eq (F.dropout x pr false) (F.dropout x 0 true).
Proof.
  intros H0 H1 p g1 g2. rewrite (dropout_eval x pr p g1 H0 H1). reflexivity.
Qed.

Lemma ResidualCNN_eval_zero (cin cout k s nf : Z) (pr : Q) (x : Tensor) :
  (0 <= pr)%Q -> (pr <= 1)%Q ->
  alike eq
    (ResidualCNN.forward
       (ResidualCNN.train false (ResidualCNN.__init__ cin cout k s pr nf)) x)
    (ResidualCNN.forward (ResidualCNN.__init__ cin cout k s 0 nf) x).
Proof.
  intros H0 H1. unfold ResidualCNN.forward. cbv zeta.
  cbn [ResidualCNN.train ResidualCNN.__init__ ResidualCNN.cnn1 ResidualCNN.cnn2
       ResidualCNN.dropout1 ResidualCNN.dropout2 ResidualCNN.layer_norm1
       ResidualCNN.layer_norm2].
  apply alike_bind with (RA := eq);
    [apply alike_call, agree_alike, CNNLayerNorm_agree |]. intros x1 ? <-.
  apply alike_bind with (RA := eq);
    [apply alike_call; now apply dropout_eval_zero |]. intros x2 ? <-.
  apply alike_bind with (RA := eq);
    [apply alike_call, agree_alike, Conv2d_agree |]. intros x3 ? <-.
  apply alike_bind with (RA := eq);
    [apply alike_call, agree_alike, CNNLayerNorm_agree |]. intros x4 ? <-.
  apply alike_bind with (RA := eq);
    [apply alike_call; now apply dropout_eval_zero |]. intros x5 ? <-.
  apply alike_bind with (RA := eq);
    [apply alike_call, agree_alike, Conv2d_agree |]. intros x6 ? <-.
  apply alike_bind with (RA := eq); [apply agree_alike, iadd_agree |]. intros x7 ? <-.
  now apply alike_ret.
Qed.

Lemma BidirectionalGRU_eval_zero (rnn_dim hidden : Z) (pr : Q) (bf : bool) (x : Tensor) :
  (0 <= pr)%Q -> (pr <= 1)%Q ->
  alike eq
    (BidirectionalGRU.forward
       (BidirectionalGRU.train false (BidirectionalGRU.__init__ rnn_dim hidden pr bf)) x)
    (BidirectionalGRU.forward (BidirectionalGRU.__init__ rnn_dim hidden 0 bf) x).
Proof.
  intros H0 H1. unfold BidirectionalGRU.forward. cbv zeta.
  cbn [BidirectionalGRU.train BidirectionalGRU.__init__ BidirectionalGRU.BiGRU
       BidirectionalGRU.layer_norm BidirectionalGRU.dropout].
  apply alike_bind with (RA := eq);
    [apply alike_call, agree_alike, LayerNorm_agree |]. intros x1 ? <-.
  apply alike_bind with (RA := eq);
    [apply alike_call, agree_alike, GRU_agree |]. intros [x2 h2] ? <-.
  apply alike_bind with (RA := eq);
    [apply alike_call; now apply dropout_eval_zero |]. intros x3 ? <-.
  now apply alike_ret.
Qed.

Lemma Sequential_alike_eq {L I} (fwd : L -> Tensor -> M Tensor) (f1 f2 : I -> L) :
  (forall i x, alike eq (fwd (f1 i) x) (fwd (f2 i) x)) ->
  forall (l : list I) k x,
    alike eq (nn.Sequential.forward_from fwd k (map f1 l) x)
          (nn.Sequential.forward_from fwd k (map f2 l) x).
Proof.
  intros H. induction l as [| i rest IH]; intros k x; cbn.
  - now apply alike_ret.
  - apply alike_bind with (RA := eq); [apply alike_call, H |].
    intros a ? <-. apply IH.
Qed.

(** X12.  Evaluation mode is dropout with probability 0: for a dropout
    probability in [0, 1], a forward call of the model in evaluation mode
    has the same outcome (the same exception, or the same tensor, element
    for element) as a forward call of the model built with dropout
    probability 0, whatever the states of the generator are. *)
Theorem X12_eval_mode_is_zero_dropout
        (n_cnn_layers n_rnn_layers rnn_dim n_class n_feats stride : Z) (pr : Q)
        (x : Tensor) (p : path) (g g' : Generator) :
  (0 <= pr)%Q -> (pr <= 1)%Q ->
  outcome (SpeechRecognitionModel.forward
             (SpeechRecognitionModel.eval
                (SpeechRecognitionModel.__init__ n_cnn_layers n_rnn_layers rnn_dim
                   n_class n_feats stride pr)) x p g)
  = outcome (SpeechRecognitionModel.forward
               (SpeechRecognitionModel.__init__ n_cnn_layers n_rnn_layers rnn_dim
                  n_class n_feats stride 0) x p g').
Proof.
  intros H0 H1.
  assert (A : alike eq
                (SpeechRecognitionModel.forward
                   (SpeechRecognitionModel.eval
                      (SpeechRecognitionModel.__init__ n_cnn_layers n_rnn_layers rnn_dim
                         n_class n_feats stride pr)) x)
                (SpeechRecognitionModel.forward
                   (SpeechRecognitionModel.__init__ n_cnn_layers n_rnn_layers rnn_dim
                      n_class n_feats stride 0) x)).
  { unfold SpeechRecognitionModel.forward, nn.Sequential.forward. cbv zeta.
    cbn [SpeechRecognitionModel.eval SpeechRecognitionModel.train
         SpeechRecognitionModel.__init__ SpeechRecognitionModel.cnn
         SpeechRecognitionModel.rescnn_layers SpeechRecognitionModel.fully_connected
         SpeechRecognitionModel.birnn_layers SpeechRecognitionModel.classifier].
    rewrite !map_map.
    apply alike_bind with (RA := eq);
      [apply alike_call, agree_alike, Conv2d_agree |]. intros x1 ? <-.
    apply alike_bind with (RA := eq).
    { apply alike_call, Sequential_alike_eq. intros i a.
      now apply ResidualCNN_eval_zero. }
    intros x2 ? <-.
    apply alike_bind with (RA := eq); [apply getitem_alike |]. intros s0 ? <-.
    apply alike_bind with (RA := eq); [apply getitem_alike |]. intros s1 ? <-.
    apply alike_bind with (RA := eq); [apply getitem_alike |]. intros s2 ? <-.
    apply alike_bind with (RA := eq); [apply getitem_alike |]. intros s3 ? <-.
    apply alike_bind with (RA := eq); [apply agree_alike, view_agree |]. intros x3 ? <-.
    apply alike_bind with (RA := eq);
      [apply agree_alike, transpose_agree |]. intros x4 ? <-.
    apply alike_bind with (RA := eq);
      [apply alike_call, agree_alike, Linear_agree |]. intros x5 ? <-.
    apply alike_bind with (RA := eq).
    { apply alike_call, Sequential_alike_eq. intros i a.
      now apply BidirectionalGRU_eval_zero. }
    intros x6 ? <-.
    apply alike_bind with (RA := eq).
    { apply alike_call. cbn [map nn.Layer.train nn.Sequential.forward_from].
      apply alike_bind with (RA := eq);
        [apply alike_call, agree_alike, Linear_agree |]. intros y1 ? <-.
      apply alike_bind with (RA := eq);
        [apply alike_call; now apply alike_ret |]. intros y2 ? <-.
      apply alike_bind with (RA := eq);
        [apply alike_call; now apply dropout_eval_zero |]. intros y3 ? <-.
      apply alike_bind with (RA := eq);
        [apply alike_call, agree_alike, Linear_agree |]. intros y4 ? <-.
      now apply alike_ret. }
    intros x7 ? <-. now apply alike_ret. }
  specialize (A p g g').
  destruct (SpeechRecognitionModel.forward _ x p g) as [e | [y h]],
           (SpeechRecognitionModel.forward _ x p g') as [e' | [y' h']];
    cbn; try easy; now f_equal.
Qed.

End EvalIsNoDropout.

(** ** The further properties at concrete inputs *)

Lemma X1_channel_mismatch_witness :
  exists y g',
    ResidualCNN.forward (ResidualCNN.__init__ 1 2 3 1 (1 # 10) 4)
      (toy_tensor [1; 1; 4; 5]) [] (fun _ => true) = inr (y, g')
    /\ shape y = [1; 2; 4; 5].
Proof.
  apply (X1_residual_block_channel_mismatch (K := ToyBackend) 1 2 1 4 1 5 (1 # 10)
           (fun idx => 1 + ravel [1; 1; 4; 5] idx) [] (fun _ => true));
    try lia; try reflexivity; unfold Qle; simpl; lia.
Defined.

Lemma X2_stride_witness :
  ResidualCNN.forward (ResidualCNN.__init__ 32 32 3 2 (1 # 10) 4)
    (toy_tensor [1; 32; 4; 5]) [] (fun _ => true)
  = inl {| site := [Attr "layer_norm2"; Attr "layer_norm"];
           what := NormShape 4 [1; 32; 3; 2] |}.
Proof.
  apply (X2_residual_block_stride_raises (K := ToyBackend) 32 1 2 4 1 5 (1 # 10)
           (fun idx => 1 + ravel [1; 32; 4; 5] idx) [] (fun _ => true));
    try lia; unfold Qle; simpl; lia.
Defined.

Lemma X3_even_kernel_witness :
  ResidualCNN.forward (ResidualCNN.__init__ 32 32 4 1 (1 # 10) 4)
    (toy_tensor [1; 32; 4; 5]) [] (fun _ => true)
  = inl {| site := [Attr "layer_norm2"; Attr "layer_norm"];
           what := NormShape 4 [1; 32; 6; 5] |}.
Proof.
  apply (X3_residual_block_even_kernel_raises (K := ToyBackend) 32 2 4 1 5 (1 # 10)
           (fun idx => 1 + ravel [1; 32; 4; 5] idx) [] (fun _ => true));
    try lia; unfold Qle; simpl; lia.
Defined.

Lemma X4_three_axes_witness :
  exists dim,
    CNNLayerNorm.forward (CNNLayerNorm.__init__ 4) (toy_tensor [2; 3; 4]) []
      (fun _ => true)
    = inl {| site := []; what := DimOutOfRange 3 dim |}.
Proof.
  apply (X4_normalization_wrapper_raises (K := ToyBackend) (CNNLayerNorm.__init__ 4)
           (toy_tensor [2; 3; 4]) [] (fun _ => true)).
  simpl. lia.
Defined.

Lemma X5_forward_shape_witness :
  exists y g',
    SpeechRecognitionModel.forward (SpeechRecognitionModel.__init__ 1 2 2 3 4 3 (1 # 10))
      (toy_tensor [2; 1; 4; 7]) [] (fun _ => true) = inr (y, g')
    /\ shape y = [2; 3; 3].
Proof.
  apply (X5_forward_shape (K := ToyBackend) 1 2 2 3 4 3 2 4 7 (1 # 10)
           (fun idx => 1 + ravel [2; 1; 4; 7] idx) [] (fun _ => true));
    try lia; try reflexivity; unfold Qle; simpl; lia.
Defined.

Lemma X6_stride_one_witness :
  SpeechRecognitionModel.forward (SpeechRecognitionModel.__init__ 1 2 2 3 4 1 (1 # 10))
    (toy_tensor [1; 1; 4; 6]) [] (fun _ => true)
  = inl {| site := [Attr "rescnn_layers"; Item 0; Attr "layer_norm1"; Attr "layer_norm"];
           what := NormShape 2 [1; 32; 6; 4] |}.
Proof.
  apply (X6_feature_width_mismatch_raises (K := ToyBackend) 1 2 2 3 4 1 1 4 6 (1 # 10)
           (fun idx => 1 + ravel [1; 1; 4; 6] idx) [] (fun _ => true));
    lia.
Defined.

Lemma X7_three_channels_witness :
  SpeechRecognitionModel.forward (SpeechRecognitionModel.__init__ 1 2 2 3 4 2 (1 # 10))
    (toy_tensor [1; 3; 4; 6]) [] (fun _ => true)
  = inl {| site := [Attr "cnn"]; what := ConvChannels 1 3 |}.
Proof.
  apply (X7_first_convolution_refuses (K := ToyBackend) 1 2 2 3 4 2 1 3 4 6 (1 # 10)
           (fun idx => 1 + ravel [1; 3; 4; 6] idx) [] (fun _ => true));
    [lia | discriminate].
Defined.

Lemma X8_generator_untouched_witness :
  exists y,
    SpeechRecognitionModel.forward (SpeechRecognitionModel.__init__ 1 2 2 3 4 2 0)
      (toy_tensor [1; 1; 4; 6]) [] Nat.even = inr (y, Nat.even).
Proof.
  destruct (forward_ok (K := ToyBackend) 1 2 2 3 4 2 0
              (toy_tensor [1; 1; 4; 6]) 1 4 6 [] Nat.even)
    as (y & g' & E & _);
    [lia | lia | lia | lia | reflexivity | lia
     | unfold Qle; simpl; lia | unfold Qle; simpl; lia | reflexivity |].
  exists y.
  rewrite <- (proj2 (X8_generator_untouched (K := ToyBackend)
                       (SpeechRecognitionModel.__init__ 1 2 2 3 4 2 0)
                       (toy_tensor [1; 1; 4; 6]) y [] Nat.even g')
                1 2 2 3 4 2 E) at 2.
  exact E.
Defined.

Lemma X9_time_first_witness :
  exists xT y yT,
    transpose 0 1 (toy_tensor [2; 3; 2]) [] (fun _ => true) = inr (xT, fun _ => true)
    /\ BidirectionalGRU.forward
         (BidirectionalGRU.train false (BidirectionalGRU.__init__ 2 3 (1 # 10) false))
         (toy_tensor [2; 3; 2]) [] (fun _ => true) = inr (y, fun _ => true)
    /\ BidirectionalGRU.forward
         (BidirectionalGRU.train false (BidirectionalGRU.__init__ 2 3 (1 # 10) true))
         xT [] (fun _ => true) = inr (yT, fun _ => true)
    /\ shape y = [2; 3; 6]
    /\ shape yT = [3; 2; 6]
    /\ forall i0 i1 j, data y [i0; i1; j] = data yT [i1; i0; j].
Proof.
  apply (X9_time_first_is_transposed_batch_first (K := ToyBackend) 2 3 2 3 (1 # 10)
           (fun idx => 1 + ravel [2; 3; 2] idx) [] (fun _ => true));
    try lia; unfold Qle; simpl; lia.
Defined.

Lemma X10_returns_witness :
  exists y g',
    SpeechRecognitionModel.forward (SpeechRecognitionModel.__init__ 1 2 2 3 4 2 (1 # 10))
      (toy_tensor [2; 1; 4; 6]) [] (fun _ => true) = inr (y, g')
    /\ shape y = [2; 3; 3].
Proof.
  destruct (forward_ok (K := ToyBackend) 1 2 2 3 4 2 (1 # 10)
              (toy_tensor [2; 1; 4; 6]) 2 4 6 [] (fun _ => true))
    as (y & g' & E & _);
    [lia | lia | lia | lia | reflexivity | lia
     | unfold Qle; simpl; lia | unfold Qle; simpl; lia | reflexivity |].
  exists y, g'. split; [exact E |].
  destruct (X10_forward_returns_only_on_valid_input (K := ToyBackend) _ _ _ _ _ _ _ _ _ _ _ _ E)
    as (B & F & T & Hx & _ & _ & _ & _ & _ & _ & _ & Sy).
  injection Hx as <- <- <-. exact Sy.
Defined.

Lemma X11_shapes_witness :
  shape_outcome
    (SpeechRecognitionModel.forward (SpeechRecognitionModel.__init__ 1 2 2 3 4 2 (1 # 10))
       (toy_tensor [1; 1; 4; 6]) [] (fun _ => true))
  = shape_outcome
      (SpeechRecognitionModel.forward
         (SpeechRecognitionModel.train false
            (SpeechRecognitionModel.__init__ 1 2 2 3 4 2 (1 # 10)))
         (mkTensor (K := ToyBackend) [1; 1; 4; 6] (fun _ => 0)) [] Nat.even).
Proof.
  apply (X11_shapes_do_not_depend_on_values_or_mode (K := ToyBackend)).
  reflexivity.
Defined.

Lemma X12_eval_mode_witness :
  outcome
    (SpeechRecognitionModel.forward
       (SpeechRecognitionModel.eval (SpeechRecognitionModel.__init__ 1 2 2 3 4 2 (1 # 10)))
       (toy_tensor [1; 1; 4; 6]) [] (fun _ => true))
  = outcome
      (SpeechRecognitionModel.forward (SpeechRecognitionModel.__init__ 1 2 2 3 4 2 0)
         (toy_tensor [1; 1; 4; 6]) [] Nat.even).
Proof.
  apply (X12_eval_mode_is_zero_dropout (K := ToyBackend));
    unfold Qle; simpl; lia.
Defined.
